(** * quantdsl: progress telemetry, completion wait and sensitivity aggregation

    A shallow embedding of [quantdsl/interfaces/calcandplot.py] (class
    [CalcAndPlot]) and the properties of its three parts:

    - [count_result_values_computed], the progress tracker with its sliding
      window of timestamps;
    - the wait loop and the subscription handling of [run];
    - [read_results], which turns perturbed valuations into per-period hedge
      and cash statistics.

    Conventions of the embedding.
    - Python exceptions are values of [exn]; a computation that may raise has
      type [result A].
    - Python floats and numpy [float64] are idealised: exact rationals [Q] in
      the tracker (so that every branch is decidable and runs), real numbers
      [R] in the aggregator (which needs square roots).  Rounding is not
      modelled.  Python's float division raises [ZeroDivisionError] on a zero
      divisor and is modelled by [py_div]; numpy's elementwise division does
      not raise and is modelled by real division.
    - [datetime.datetime.now()] is an input of the handler, a number of
      microseconds; [timedelta.total_seconds()] divides by 10^6. *)

From Stdlib Require Import ZArith QArith Qminmax Reals Lra Lia List String Ascii Bool.
From Stdlib Require Import Sorted.
From stdpp Require Import gmap strings.
Import ListNotations.

Local Open Scope Z_scope.

(** ** Python exceptions and the [result] monad *)

Inductive date : Type :=
  | Date (year month day : Z).

Inductive exn : Type :=
  | KeyError
  | ValueError
  | OverflowError
  | AssertionError
  | ZeroDivisionError
  | NotImplementedError (tag : string)
  | PriceUnavailable (price_date : date).
      (* Exception("Simulated price for date {} is unavailable") *)

Inductive result (A : Type) : Type :=
  | Ok (a : A)
  | Raise (e : exn).
Arguments Ok {A} a.
Arguments Raise {A} e.

#[global] Instance result_ret : MRet result := fun A a => Ok a.
#[global] Instance result_bind : MBind result := fun A B f m =>
  match m with
  | Ok a => f a
  | Raise e => Raise e
  end.
#[global] Instance result_fmap : FMap result := fun A B f m =>
  match m with
  | Ok a => Ok (f a)
  | Raise e => Raise e
  end.

Definition is_ok {A} (r : result A) : bool :=
  match r with Ok _ => true | Raise _ => false end.

(** ** The progress tracker ([count_result_values_computed]) *)

Module Tracker.

Local Open Scope Q_scope.

(** The events published on the bus that the two predicates look at. *)
Inductive event : Type :=
  | ResultValueComputed
  | CallResultCreated (entity_id : string)
  | OtherEvent.

(** [self.times], [self.total_cost], [self.result_values_computed_count].
    [times] is the deque, oldest sample first. *)
Record state : Type := mkState {
  times : list Z;
  total_cost : Z;
  result_values_computed_count : Z
}.

(** The arguments of the format call written to stdout. *)
Record report : Type := mkReport {
  percent : Q;
  completed : Z;
  total : Z;
  rate : Q;
  eta : Q
}.

(** State at the end of [calc_results]: the summed call costs, an empty
    deque, and the counter set by [__init__]. *)
Definition init (cost : Z) : state := mkState [] cost 0.

Definition is_result_value_computed (e : event) : bool :=
  match e with ResultValueComputed => true | _ => false end.

(** Float division: raises on a zero divisor. *)
Definition py_div (a b : Q) : result Q :=
  if Qeq_bool b 0 then Raise ZeroDivisionError else Ok (a / b).

Definition Qgtb (a b : Q) : bool := negb (Qle_bool a b).

Definition len (l : list Z) : Z := Z.of_nat (length l).

(** [(times[-1] - times[0]).total_seconds()] *)
Definition total_seconds (l : list Z) : Q :=
  inject_Z (List.last l 0%Z - List.hd 0%Z l) / inject_Z 1000000.

(** Lines 108-110: append the timestamp, then drop the oldest sample when
    the length exceeds [0.5 * total_cost]. *)
Definition push (now : Z) (self : state) : list Z :=
  let times1 := (times self ++ [now])%list in
  if Qgtb (inject_Z (len times1)) ((1 # 2) * inject_Z (total_cost self))
  then tl times1
  else times1.

(** Lines 111-115. *)
Definition rate_of (window : list Z) : result Q :=
  if (1 <? len window)%Z
  then py_div (inject_Z (len window)) (total_seconds window)
  else Ok (1 # 1000).

(** The handler.  The state it returns is the state left behind, also when
    an exception escapes: the deque is updated before anything can raise,
    the counter is incremented just before the percentage is formatted. *)
Definition count_result_values_computed
    (now : Z) (ev : event) (self : state) : state * result report :=
  let window := push now self in
  let self1 := mkState window (total_cost self) (result_values_computed_count self) in
  match rate_of window with
  | Raise e => (self1, Raise e)
  | Ok rate =>
    match py_div (inject_Z (total_cost self - result_values_computed_count self)) rate with
    | Raise e => (self1, Raise e)
    | Ok eta =>
      if negb (is_result_value_computed ev) then (self1, Raise AssertionError)
      else
        let count := (result_values_computed_count self + 1)%Z in
        let self2 := mkState window (total_cost self) count in
        match py_div (100 * inject_Z count) (inject_Z (total_cost self)) with
        | Raise e => (self2, Raise e)
        | Ok percent =>
          (self2, Ok (mkReport percent count (total_cost self) rate eta))
        end
    end
  end.

(** Delivery of a sequence of [ResultValueComputed] events, one timestamp
    each; the deque and the counter survive a raising handler. *)
Definition notify (self : state) (now : Z) : state :=
  fst (count_result_values_computed now ResultValueComputed self).

Definition run_notifications (stamps : list Z) (self : state) : state :=
  fold_left notify stamps self.

(** What holds of the deque after any number of notifications. *)
Definition window_inv (cost : Z) (stamps window : list Z) : Prop :=
  (window = [] \/ (2 * len window <= cost)%Z) /\
  ((cost < 2)%Z -> window = []) /\
  ((2 <= cost)%Z -> stamps <> [] -> window <> []) /\
  exists evicted, stamps = evicted ++ window.

End Tracker.

(** ** Python built-ins used by [read_results] *)

Module Py.

(** [s.startswith('-')] *)
Definition startswith_dash (s : string) : bool :=
  match s with
  | String c _ => Ascii.eqb c "-"%char
  | EmptyString => false
  end.

(** [s.split('-')]: never empty, one more component than there are dashes. *)
Fixpoint split_dash (s : string) : list string :=
  match s with
  | EmptyString => [EmptyString]
  | String c s' =>
    if Ascii.eqb c "-"%char then EmptyString :: split_dash s'
    else match split_dash s' with
         | h :: t => String c h :: t
         | [] => [String c EmptyString]
         end
  end.

Definition is_space (c : ascii) : bool :=
  let n := nat_of_ascii c in
  (Nat.eqb n 32 || (Nat.leb 9 n && Nat.leb n 13))%bool.

Fixpoint lstrip (s : string) : string :=
  match s with
  | String c s' => if is_space c then lstrip s' else s
  | EmptyString => EmptyString
  end.

Fixpoint rstrip (s : string) : string :=
  match s with
  | EmptyString => EmptyString
  | String c s' =>
    match rstrip s' with
    | EmptyString => if is_space c then EmptyString else String c EmptyString
    | r => String c r
    end
  end.

Definition digit_of (c : ascii) : option Z :=
  let n := nat_of_ascii c in
  if (Nat.leb 48 n && Nat.leb n 57)%bool then Some (Z.of_nat (n - 48)) else None.

Fixpoint digits (s : string) (acc : Z) : option Z :=
  match s with
  | EmptyString => Some acc
  | String c s' =>
    match digit_of c with
    | Some d => digits s' (10 * acc + d)
    | None => None
    end
  end.

(** [int(s)] on a string: surrounding whitespace is dropped, one sign is
    allowed, and what remains must be a non-empty run of decimal digits;
    anything else is a [ValueError]. *)
Definition int_of_string (s : string) : result Z :=
  let t := rstrip (lstrip s) in
  let '(sign, body) :=
    match t with
    | String c b =>
      if Ascii.eqb c "-"%char then (-1, b)
      else if Ascii.eqb c "+"%char then (1, b)
      else (1, t)
    | EmptyString => (1, t)
    end in
  match body with
  | EmptyString => Raise ValueError
  | _ => match digits body 0 with
         | Some n => Ok (sign * n)
         | None => Raise ValueError
         end
  end.

Definition is_leap (y : Z) : bool :=
  ((y mod 4 =? 0) && (negb (y mod 100 =? 0) || (y mod 400 =? 0)))%bool.

Definition days_in_month (y m : Z) : Z :=
  if (m =? 2) then (if is_leap y then 29 else 28)
  else if ((m =? 4) || (m =? 6) || (m =? 9) || (m =? 11))%bool then 30
  else 31.

(** An integer that converts to a C int. *)
Definition fits_c_int (z : Z) : bool :=
  ((-2147483648 <=? z) && (z <=? 2147483647))%bool.

(** [datetime.date(year, month, day)]: the three arguments are converted to
    C ints first, which raises [OverflowError] when one of them does not
    fit; then they are checked against the calendar, which raises
    [ValueError]. *)
Definition make_date (y m d : Z) : result date :=
  if negb (fits_c_int y && fits_c_int m && fits_c_int d)
  then Raise OverflowError
  else if ((1 <=? y) && (y <=? 9999) && (1 <=? m) && (m <=? 12)
           && (1 <=? d) && (d <=? days_in_month y m))%bool
  then Ok (Date y m d)
  else Raise ValueError.

(** Comparison of two lists of integers, as Python compares lists. *)
Fixpoint list_ltb (a b : list Z) : bool :=
  match a, b with
  | [], [] => false
  | [], _ :: _ => true
  | _ :: _, [] => false
  | x :: a', y :: b' =>
    if x <? y then true else if y <? x then false else list_ltb a' b'
  end.

(** [sorted(names, key=...)]: the keys are computed first, in order (the
    first failing [int] aborts the sort); the sort is stable, here an
    insertion sort that puts an element before the first one whose key is
    not smaller. *)
Definition sort_key (x : string) : result (list Z) :=
  mapM int_of_string (tl (split_dash x)).

Fixpoint keyed (names : list string) : result (list (list Z * string)) :=
  match names with
  | [] => Ok []
  | x :: xs =>
    k ← sort_key x;
    rest ← keyed xs;
    Ok ((k, x) :: rest)
  end.

Fixpoint insert_by (kx : list Z * string) (l : list (list Z * string))
  : list (list Z * string) :=
  match l with
  | [] => [kx]
  | ky :: l' =>
    if list_ltb (fst ky) (fst kx) then ky :: insert_by kx l' else kx :: l
  end.

Definition sort_by_key (l : list (list Z * string)) : list (list Z * string) :=
  fold_right insert_by [] l.

(** No key is followed by one with a smaller sort key. *)
Definition ascending (l : list (list Z * string)) : Prop :=
  Sorted (fun a b => list_ltb (fst b) (fst a) = false) l.

Definition sorted (names : list string) : result (list string) :=
  l ← keyed names;
  Ok (map snd (sort_by_key l)).

(** [d[k]] on a dict given by its items in iteration order. *)
Fixpoint dict_get {V} (d : list (string * V)) (k : string) : result V :=
  match d with
  | [] => Raise KeyError
  | (k', v) :: d' => if String.eqb k' k then Ok v else dict_get d' k
  end.

End Py.

(** ** numpy: one-dimensional arrays of per-path samples *)

Module Numpy.

Local Open Scope R_scope.

Definition ndarray : Type := list R.

(** What a result value is: a Python number or an array of samples. *)
Inductive value : Type :=
  | PyFloat (x : R)
  | NdArray (a : ndarray).

Definition zeros (n : nat) : ndarray := repeat 0 n.

(** Broadcasting of two one-dimensional operands: equal lengths go
    elementwise, a length-one operand is stretched, anything else is numpy's
    "operands could not be broadcast together". *)
Definition broadcast (f : R -> R -> R) (a b : ndarray) : result ndarray :=
  if Nat.eqb (length a) (length b) then Ok (zip_with f a b)
  else match a, b with
       | [x], _ => Ok (map (f x) b)
       | _, [y] => Ok (map (fun x => f x y) a)
       | _, _ => Raise ValueError
       end.

(** [u - v] *)
Definition subtract (u v : value) : result value :=
  match u, v with
  | PyFloat x, PyFloat y => Ok (PyFloat (x - y))
  | PyFloat x, NdArray b => Ok (NdArray (map (fun y => x - y) b))
  | NdArray a, PyFloat y => Ok (NdArray (map (fun x => x - y) a))
  | NdArray a, NdArray b => NdArray <$> broadcast Rminus a b
  end.

(** [k * a] for a Python number [k] *)
Definition scale (k : R) (a : ndarray) : ndarray := map (fun x => k * x) a.

(** [u / a].  numpy does not raise on a zero divisor: the entry becomes
    [inf] or [nan].  Such entries are not represented here; the entry at a
    zero divisor is the real [x * / 0], and nothing below relies on its
    value: the theorems about vectors say which expression an entry is. *)
Definition divide (u : value) (a : ndarray) : result ndarray :=
  match u with
  | PyFloat x => Ok (map (fun y => x / y) a)
  | NdArray b => broadcast Rdiv b a
  end.

(** [- a] *)
Definition negative (a : ndarray) : ndarray := map Ropp a.

(** [a * b] *)
Definition multiply (a b : ndarray) : result ndarray := broadcast Rmult a b.

(** [t += h]: the left operand keeps its shape. *)
Definition iadd (t h : ndarray) : result ndarray :=
  if Nat.eqb (length h) (length t) then Ok (zip_with Rplus t h)
  else match h with
       | [y] => Ok (map (fun x => x + y) t)
       | _ => Raise ValueError
       end.

Definition sum (a : ndarray) : R := fold_right Rplus 0 a.

(** [a.mean()], without the rounding of the float sum. *)
Definition mean (a : ndarray) : R := sum a / INR (length a).

(** [a.std()]: numpy's default, the square root of the mean of the squared
    absolute deviations from the mean (no degrees-of-freedom correction). *)
Definition std (a : ndarray) : R :=
  sqrt (mean (map (fun x => Rabs (x - mean a) ^ 2) a)).

End Numpy.

(** ** The sensitivity aggregator ([read_results]) *)

Module Aggregator.

Import Py Numpy.
Local Open Scope R_scope.

#[global] Instance date_eq_dec : EqDecision date.
Proof. solve_decision. Defined.

#[global] Instance date_countable : Countable date :=
  inj_countable' (fun d => match d with Date y m d => (y, m, d) end)
                 (fun t => match t with (y, m, d) => Date y m d end)
                 (fun d => match d with Date _ _ _ => eq_refl end).

(** Modelled from the spec: [make_call_result_id] and
    [make_simulated_price_id] are imported from the domain model and are
    not part of this file.  The result store is "keyed by a deterministic
    id derived from (valuation_id, spec_id)", the simulated-price store is
    "keyed by (simulation_id, commodity, start_date, end_date)": an id is
    the tuple it is made from.  The observation date of the simulation,
    used for the spot bucket, is kept as a date. *)
Definition call_result_id : Type := string * string.
Definition simulated_price_id : Type := string * string * date * date.

Definition make_call_result_id (valuation_id spec_id : string) : call_result_id :=
  (valuation_id, spec_id).
Definition make_simulated_price_id (simulation_id commodity : string)
    (price_time delivery_time : date) : simulated_price_id :=
  (simulation_id, commodity, price_time, delivery_time).

(** [call_result.result_value] and [call_result.perturbed_values]; the dict
    is given by its items in iteration order, which is the order in which
    the stable sort leaves keys with equal sort keys. *)
Record call_result : Type := mkCallResult {
  result_value : value;
  perturbed_values : list (string * value)
}.

Record contract_valuation : Type := mkValuation {
  valuation_id : string;
  contract_specification_id : string
}.

Record market_simulation : Type := mkSimulation {
  simulation_id : string;
  observation_date : date;
  perturbation_factor : R
}.

Record application : Type := mkApp {
  call_result_repo : gmap call_result_id call_result;
  simulated_price_repo : gmap simulated_price_id ndarray
}.

(** [repo[key]] *)
Definition repo_get `{Countable K} {V} (repo : gmap K V) (key : K) : result V :=
  match repo !! key with
  | Some v => Ok v
  | None => Raise KeyError
  end.

(** One entry of [periods]. *)
Record period : Type := mkPeriod {
  commodity : string;
  date_of : option date;
  hedge_units_mean : R;
  hedge_units_stderr : R;
  price_mean : R;
  price_std : R;
  cash_in_mean : R;
  cash_in_stderr : R;
  cum_cash_mean : R;
  cum_cash_stderr : R;
  cum_pos_mean : R;
  cum_pos_stderr : R;
  total_unit_stderr : option R
}.

(** The variables the loop of [read_results] updates. *)
Record acc : Type := mkAcc {
  total_cash_in : ndarray;
  total_units : ndarray;
  periods : list period
}.

(** Lines 170-173 and 211-216: the per-path hedge of one bucket. *)
Definition hedge_units_of (perturbed_value perturbed_value_negative : value)
    (perturbation_factor : R) (price : ndarray) : result ndarray :=
  dy ← subtract perturbed_value perturbed_value_negative;
  let dx := scale (2 * perturbation_factor) price in
  contract_delta ← divide dy dx;
  Ok (negative contract_delta).

(** Lines 176 and 217. *)
Definition cash_in_of (hedge_units price : ndarray) : result ndarray :=
  multiply (negative hedge_units) price.

(** Lines 197-203. *)
Definition price_date_of (perturbed_name_split : list string) : result date :=
  year ← int_of_string (nth 1 perturbed_name_split EmptyString);
  month ← int_of_string (nth 2 perturbed_name_split EmptyString);
  if Nat.ltb 3 (length perturbed_name_split) then
    day ← int_of_string (nth 3 perturbed_name_split EmptyString);
    make_date year month day
  else make_date year month 1.

(** Lines 179-193: the entry of a bucket without a date; its cumulative
    fields repeat its own figures and it has no [total_unit_stderr]. *)
Definition spot_period (sqrt_path_count : R) (perturbed_name : string)
    (price hedge_units cash_in : ndarray) : period :=
  let hedge_units_mean := mean hedge_units in
  let hedge_units_stderr := std hedge_units / sqrt_path_count in
  let cash_in_mean := mean cash_in in
  let cash_in_stderr := std cash_in / sqrt_path_count in
  mkPeriod perturbed_name None
    hedge_units_mean hedge_units_stderr
    (mean price) (std price)
    cash_in_mean cash_in_stderr
    cash_in_mean cash_in_stderr
    hedge_units_mean hedge_units_stderr
    None.

(** Lines 220-241: the entry of a dated bucket, from its own vectors and
    from the running totals. *)
Definition dated_period (sqrt_path_count : R) (perturbed_name : string)
    (price_date : date) (price hedge_units cash_in total_units total_cash_in : ndarray)
  : period :=
  mkPeriod perturbed_name (Some price_date)
    (mean hedge_units) (std hedge_units / sqrt_path_count)
    (mean price) (std price)
    (mean cash_in) (std cash_in / sqrt_path_count)
    (mean total_cash_in) (std total_cash_in / sqrt_path_count)
    (mean total_units) (std total_units / sqrt_path_count)
    (Some (std total_units / sqrt_path_count)).

Section Loop.

Variable app : application.
Variable cr : call_result.
Variable sim : market_simulation.
Variable path_count : nat.

Definition sqrt_path_count : R := sqrt (INR path_count).

(** Lines 163-193: the bucket of a bare commodity name. *)
Definition spot_bucket (st : acc) (perturbed_name commodity_name : string)
    (perturbed_value perturbed_value_negative : value) : result acc :=
  let simulated_price_id :=
    make_simulated_price_id (simulation_id sim) commodity_name
      (observation_date sim) (observation_date sim) in
  simulated_price ← repo_get (simulated_price_repo app) simulated_price_id;
  hedge_units ← hedge_units_of perturbed_value perturbed_value_negative
                  (perturbation_factor sim) simulated_price;
  cash_in ← cash_in_of hedge_units simulated_price;
  Ok (mkAcc (total_cash_in st) (total_units st)
        (periods st ++
         [spot_period sqrt_path_count perturbed_name
            simulated_price hedge_units cash_in])).

(** Lines 197-241: a bucket with a year and a month (and perhaps a day). *)
Definition dated_bucket (st : acc) (perturbed_name commodity_name : string)
    (perturbed_name_split : list string)
    (perturbed_value perturbed_value_negative : value) : result acc :=
  price_date ← price_date_of perturbed_name_split;
  let simulated_price_id :=
    make_simulated_price_id (simulation_id sim) commodity_name
      price_date price_date in
  price ← match simulated_price_repo app !! simulated_price_id with
          | Some v => Ok v
          | None => Raise (PriceUnavailable price_date)
          end;
  hedge_units ← hedge_units_of perturbed_value perturbed_value_negative
                  (perturbation_factor sim) price;
  cash_in ← cash_in_of hedge_units price;
  total_units' ← iadd (total_units st) hedge_units;
  total_cash_in' ← iadd (total_cash_in st) cash_in;
  Ok (mkAcc total_cash_in' total_units'
        (periods st ++
         [dated_period sqrt_path_count perturbed_name price_date
            price hedge_units cash_in total_units' total_cash_in'])).

(** The body of the [for] loop, lines 156-241. *)
Definition bucket (st : acc) (perturbed_name : string) : result acc :=
  perturbed_value ← dict_get (perturbed_values cr) perturbed_name;
  perturbed_value_negative ←
    dict_get (perturbed_values cr) (String "-"%char perturbed_name);
  let perturbed_name_split := split_dash perturbed_name in
  let commodity_name := hd EmptyString perturbed_name_split in
  if String.eqb commodity_name perturbed_name then
    spot_bucket st perturbed_name commodity_name
      perturbed_value perturbed_value_negative
  else if Nat.ltb 2 (length perturbed_name_split) then
    dated_bucket st perturbed_name commodity_name perturbed_name_split
      perturbed_value perturbed_value_negative
  else Ok st.

Fixpoint for_each (names : list string) (st : acc) : result acc :=
  match names with
  | [] => Ok st
  | name :: rest => st' ← bucket st name; for_each rest st'
  end.

End Loop.

(** Lines 147-149. *)
Definition perturbed_names (cr : call_result) : result (list string) :=
  sorted (List.filter (fun i => negb (startswith_dash i))
            (map fst (perturbed_values cr))).

Definition fair_value_stats (fair_value : value) (path_count : nat) : R * R :=
  match fair_value with
  | PyFloat x => (x, 0)
  | NdArray a => (mean a, std a / sqrt_path_count path_count)
  end.

(** [read_results]: returns [(fair_value_stderr, fair_value_mean, periods)]. *)
Definition read_results (app : application) (evaluation : contract_valuation)
    (sim : market_simulation) (path_count : nat)
  : result (R * R * list period) :=
  let id := make_call_result_id (valuation_id evaluation)
              (contract_specification_id evaluation) in
  cr ← repo_get (call_result_repo app) id;
  let '(fair_value_mean, fair_value_stderr) :=
    fair_value_stats (result_value cr) path_count in
  names ← perturbed_names cr;
  st ← for_each app cr sim path_count names
         (mkAcc (zeros path_count) (zeros path_count) []);
  Ok (fair_value_stderr, fair_value_mean, periods st).

(** *** Vocabulary for the statements *)

(** The three ways the loop body treats a key (lines 162 and 196). *)
Inductive kind : Type := Spot | Dated | Ignored.

Definition kind_of (perturbed_name : string) : kind :=
  let perturbed_name_split := split_dash perturbed_name in
  if String.eqb (hd EmptyString perturbed_name_split) perturbed_name then Spot
  else if Nat.ltb 2 (length perturbed_name_split) then Dated
  else Ignored.

Definition is_dated (perturbed_name : string) : bool :=
  match kind_of perturbed_name with Dated => true | _ => false end.

(** The date (none for a spot bucket) and the price vector that the bucket
    of a key is computed with, when the key has a bucket and the store has
    its price. *)
Definition bucket_price (app : application) (sim : market_simulation)
    (perturbed_name : string) : option (option date * ndarray) :=
  match kind_of perturbed_name with
  | Spot =>
    price ← simulated_price_repo app !!
              make_simulated_price_id (simulation_id sim) perturbed_name
                (observation_date sim) (observation_date sim);
    Some (None, price)
  | Dated =>
    match price_date_of (split_dash perturbed_name) with
    | Ok d =>
      price ← simulated_price_repo app !!
                make_simulated_price_id (simulation_id sim)
                  (hd EmptyString (split_dash perturbed_name)) d d;
      Some (Some d, price)
    | Raise _ => None
    end
  | Ignored => None
  end.

(** The per-path [hedge_units] and [cash_in] of the bucket of a key, given
    the price vector of the bucket. *)
Definition vectors_of (cr : call_result) (sim : market_simulation)
    (perturbed_name : string) (price : ndarray) : result (ndarray * ndarray) :=
  perturbed_value ← dict_get (perturbed_values cr) perturbed_name;
  perturbed_value_negative ←
    dict_get (perturbed_values cr) (String "-"%char perturbed_name);
  hedge_units ← hedge_units_of perturbed_value perturbed_value_negative
                  (perturbation_factor sim) price;
  cash_in ← cash_in_of hedge_units price;
  Ok (hedge_units, cash_in).

(** The state the loop starts in (lines 151-153). *)
Definition initial (path_count : nat) : acc :=
  mkAcc (zeros path_count) (zeros path_count) [].

(** The last entry that has a date. *)
Definition last_dated (ps : list period) : option period :=
  fold_left (fun found p => match date_of p with Some _ => Some p | None => found end)
    ps None.

(** The sum, over a list of vectors, of their entries at one path. *)
Definition column (i : nat) (vs : list ndarray) : R :=
  sum (map (fun v => nth i v 0) vs).

(** Every perturbed value and every simulated price is a vector with one
    sample per path. *)
Definition well_shaped (app : application) (cr : call_result) (n : nat) : Prop :=
  Forall (fun kv => exists a, snd kv = NdArray a /\ length a = n)
    (perturbed_values cr) /\
  map_Forall (fun _ price => length price = n) (simulated_price_repo app).

(** [hc] is the pair of per-path vectors of the dated bucket of a key. *)
Definition dated_vectors (app : application) (cr : call_result)
    (sim : market_simulation) (perturbed_name : string)
    (hc : ndarray * ndarray) : Prop :=
  exists d price,
    bucket_price app sim perturbed_name = Some (Some d, price) /\
    vectors_of cr sim perturbed_name price = Ok hc.

End Aggregator.

(** ** [run]: subscriptions, the wait for the result, and the read *)

Module Runner.

Import Aggregator.

(** The bound methods of a [CalcAndPlot] object that are given to the event
    bus; the number tells the objects apart ([calc_and_plot] makes a new one
    for every call). *)
Inductive method : Type :=
  | IsEvaluationComplete
  | OnEvaluationComplete
  | IsResultValueComputed
  | CountResultValuesComputed.

#[global] Instance method_eq_dec : EqDecision method.
Proof. solve_decision. Defined.

Definition bound_method : Type := nat * method.

(** A registered (predicate, handler) pair, and the bus that holds them. *)
Definition subscription : Type := bound_method * bound_method.
Definition bus : Type := list subscription.

Definition completion_filter (self : nat) : subscription :=
  ((self, IsEvaluationComplete), (self, OnEvaluationComplete)).
Definition unit_counter (self : nat) : subscription :=
  ((self, IsResultValueComputed), (self, CountResultValuesComputed)).

(** Code that raises and changes the bus. *)
Definition M (A : Type) : Type := bus -> bus * result A.

#[global] Instance M_ret : MRet M := fun A a b => (b, Ok a).
#[global] Instance M_bind : MBind M := fun A B k m b =>
  match m b with
  | (b', Ok a) => k a b'
  | (b', Raise e) => (b', Raise e)
  end.

Definition lift {A} (r : result A) : M A := fun b => (b, r).

Definition subscribe (s : subscription) : M unit :=
  fun b => (b ++ [s], Ok tt).

Fixpoint remove_first (s : subscription) (b : bus) : bus :=
  match b with
  | [] => []
  | x :: b' => if decide (x = s) then b' else x :: remove_first s b'
  end.

Definition unsubscribe (s : subscription) : M unit :=
  fun b => (remove_first s b, Ok tt).

(** What [run] is called with, and what its collaborators answer.  The
    stores are filled by other threads while [run] waits: [app_at n] is the
    application as the caller finds it at its [n]-th look, [wait n] is what
    the [n]-th [is_evaluation_ready.wait(timeout=2)] returns. *)
Record world : Type := mkWorld {
  path_count : nat;
  periodisation : string;
  supress_plot : bool;
  getenv_SUPRESS_PLOT : option string;
  compile : result string;
  register_market_calibration : result unit;
  simulate : result market_simulation;
  calc_call_costs : result (list Z);
  evaluate : result contract_valuation;
  app_at : nat -> application;
  wait : nat -> bool
}.

(** [calc_results], lines 80-102; it ends with the tracker in the state
    [Tracker.init (sum of the call costs)]. *)
Definition calc_results (self : nat) (w : world)
  : M (contract_valuation * market_simulation) :=
  _ ← lift (register_market_calibration w);
  market_simulation ← lift (simulate w);
  _ ← lift (calc_call_costs w);
  _ ← subscribe (unit_counter self);
  evaluation ← lift (evaluate w);
  mret (evaluation, market_simulation).

Definition contains (app : application) (id : call_result_id) : bool :=
  match call_result_repo app !! id with Some _ => true | None => false end.

(** How the [while] loop of lines 60-62 is left: its condition is false at
    some turn, or the wait of that turn returns true and the loop breaks. *)
Inductive exit : Type :=
  | Found (turn : nat)
  | Signalled (turn : nat).

Fixpoint wait_loop (id : call_result_id) (app_at : nat -> application)
    (wait : nat -> bool) (fuel turn : nat) : option exit :=
  match fuel with
  | O => None
  | S fuel' =>
    if contains (app_at turn) id then Some (Found turn)
    else if wait turn then Some (Signalled turn)
    else wait_loop id app_at wait fuel' (S turn)
  end.

Definition turn_of (e : exit) : nat :=
  match e with
  | Found turn => turn
  | Signalled turn => turn
  end.

(** The look at the stores that follows the loop: the one that found the
    id, or the one after the wait that was signalled. *)
Definition next_look (e : exit) : nat :=
  match e with
  | Found turn => turn
  | Signalled turn => S turn
  end.

(** [plot_results], lines 287-294: the only place where it raises. *)
Definition plot_results (periodisation : string) : result unit :=
  if String.eqb periodisation "monthly" then Ok tt
  else if String.eqb periodisation "daily" then Ok tt
  else Raise (NotImplementedError periodisation).

Definition truthy (s : option string) : bool :=
  match s with
  | Some (String _ _) => true
  | _ => false
  end.

(** Lines 46-57. *)
Definition start (self : nat) (w : world)
  : M (contract_valuation * market_simulation) :=
  _ ← lift (compile w);
  _ ← subscribe (completion_filter self);
  calc_results self w.

(** Lines 65-78. *)
Definition finish (self : nat) (w : world) (app : application)
    (evaluation : contract_valuation) (sim : market_simulation) : M unit :=
  r ← lift (read_results app evaluation sim (path_count w));
  let periods := snd r in
  let supress := (supress_plot w || truthy (getenv_SUPRESS_PLOT w))%bool in
  _ ← (if (negb supress && Nat.ltb 1 (length periods))%bool
        then lift (plot_results (periodisation w))
        else mret tt);
  _ ← unsubscribe (unit_counter self);
  unsubscribe (completion_filter self).

(** [run]; [None] when the loop is still waiting after [fuel] turns. *)
Definition run (self : nat) (w : world) (fuel : nat) (b : bus)
  : option (bus * result unit) :=
  match start self w b with
  | (b1, Raise e) => Some (b1, Raise e)
  | (b1, Ok (evaluation, sim)) =>
    let id := make_call_result_id (valuation_id evaluation)
                (contract_specification_id evaluation) in
    match wait_loop id (app_at w) (wait w) fuel 0 with
    | None => None
    | Some e => Some (finish self w (app_at w (next_look e)) evaluation sim b1)
    end
  end.

End Runner.

(** ** The event bus and the two handlers of a [CalcAndPlot] object *)

Module Bus.

Import Aggregator.

(** The events of the valuation engine, with the id a [CallResult.Created]
    carries. *)
Inductive event : Type :=
  | ResultValueComputed
  | CallResultCreated (entity_id : call_result_id)
  | OtherEvent.

(** The fields of the object that the completion handlers read and write:
    [self.call_result_id] ([None] until line 57) and the flag of
    [self.is_evaluation_ready]. *)
Record self : Type := mkSelf {
  call_result_id : option call_result_id;
  is_evaluation_ready : bool
}.

(** [__init__], lines 30-33. *)
Definition new : self := mkSelf None false.

(** Lines 35-36. *)
Definition is_evaluation_complete (s : self) (e : event) : bool :=
  match e with
  | CallResultCreated entity_id =>
    match call_result_id s with
    | Some id => bool_decide (entity_id = id)
    | None => false
    end
  | _ => false
  end.

(** Lines 38-39: [Event.set()]. *)
Definition on_evaluation_complete (s : self) (e : event) : self :=
  mkSelf (call_result_id s) true.

(** What publishing an event does to the object through the subscription
    of line 50: the handler runs when the predicate holds. *)
Definition publish (s : self) (e : event) : self :=
  if is_evaluation_complete s e then on_evaluation_complete s e else s.

(** Lines 104-105, on the events of this module. *)
Definition is_result_value_computed (e : event) : bool :=
  match e with ResultValueComputed => true | _ => false end.

Definition tracker_event (e : event) : Tracker.event :=
  match e with
  | ResultValueComputed => Tracker.ResultValueComputed
  | CallResultCreated (valuation_id, spec_id) => Tracker.CallResultCreated valuation_id
  | OtherEvent => Tracker.OtherEvent
  end.

(** What publishing an event does to the tracker through the subscription
    of line 100; [None] when the handler is not called. *)
Definition publish_to_tracker (now : Z) (e : event) (t : Tracker.state)
  : Tracker.state * option (result Tracker.report) :=
  if is_result_value_computed e
  then let r := Tracker.count_result_values_computed now (tracker_event e) t in
       (fst r, Some (snd r))
  else (t, None).

End Bus.

(** ** Vocabulary for the order of the periods *)

Module Order.

Import Py Numpy Aggregator.

(** The keys the loop appends an entry for. *)
Definition has_bucket (perturbed_name : string) : bool :=
  match kind_of perturbed_name with Ignored => false | _ => true end.

Fixpoint count_dashes (s : string) : nat :=
  match s with
  | EmptyString => O
  | String c s' =>
    if Ascii.eqb c "-"%char then S (count_dashes s') else count_dashes s'
  end.

(** Dates in calendar order. *)
Definition date_le (a b : date) : Prop :=
  match a, b with
  | Date y1 m1 d1, Date y2 m2 d2 =>
    (y1 < y2 \/ (y1 = y2 /\ (m1 < m2 \/ (m1 = m2 /\ d1 <= d2))))%Z
  end.

(** Entries without a date first, then by date. *)
Definition period_le (p q : period) : Prop :=
  match date_of p, date_of q with
  | None, _ => True
  | Some _, None => False
  | Some a, Some b => date_le a b
  end.

(** The date of an entry is the one its key spells: none for a spot key,
    the parsed year, month and day (1 when there is none) for a dated
    key. *)
Definition date_from_key (p : period) : Prop :=
  match kind_of (commodity p) with
  | Spot => date_of p = None
  | Dated =>
    exists d, price_date_of (split_dash (commodity p)) = Ok d /\
              date_of p = Some d
  | Ignored => False
  end.

(** The order the sort puts two keys in: the sort key of the second is not
    smaller than that of the first. *)
Definition name_le (a b : string) : Prop :=
  exists ka kb, sort_key a = Ok ka /\ sort_key b = Ok kb /\
                list_ltb kb ka = false.

End Order.

(** ** The series of [plot_results] *)

Module Plot.

Import Numpy Aggregator.
Local Open Scope R_scope.




End Plot.

(** ** Concrete inputs *)

Module Examples.

Import Numpy Aggregator Runner.
Local Open Scope R_scope.

Definition sim : market_simulation :=
  mkSimulation "sim" (Date 2011 1 1) (1 / 100).

Definition evaluation : contract_valuation := mkValuation "val" "spec".

Definition id : call_result_id := ("val", "spec")%string.

(** Two monthly buckets of one commodity, two paths. *)
Definition two_months : call_result :=
  mkCallResult (NdArray [10; 12])
    [ ("GAS-2011-2", NdArray [11; 13]);
      ("-GAS-2011-1", NdArray [9; 11]);
      ("GAS-2011-1", NdArray [11; 14]);
      ("-GAS-2011-2", NdArray [10; 11]) ]%string.

Definition prices : gmap simulated_price_id ndarray :=
  <[ ("sim", "GAS", Date 2011 1 1, Date 2011 1 1)%string := [10; 20] ]>
  (<[ ("sim", "GAS", Date 2011 2 1, Date 2011 2 1)%string := [20; 25] ]> ∅).

Definition app_done : application :=
  mkApp (<[ id := two_months ]> ∅) prices.

(** The same result, but the price of February is not in the store. *)
Definition app_price_missing : application :=
  mkApp (<[ id := two_months ]> ∅)
        (<[ ("sim", "GAS", Date 2011 1 1, Date 2011 1 1)%string := [10; 20] ]> ∅).

Definition app_empty : application := mkApp ∅ ∅.

(** A bare commodity name, a key with a year only, and a monthly key. *)
Definition mixed : call_result :=
  mkCallResult (PyFloat 10)
    [ ("GAS-2020", NdArray [4; 5]);
      ("-GAS-2020", NdArray [3; 4]);
      ("GAS", NdArray [11; 13]);
      ("-GAS", NdArray [9; 11]);
      ("GAS-2011-2", NdArray [11; 13]);
      ("-GAS-2011-2", NdArray [10; 11]) ]%string.

Definition app_mixed : application :=
  mkApp (<[ id := mixed ]> ∅) prices.

Definition world_of (app : application) (tag : string) : world :=
  mkWorld 2 tag false None
    (Ok "spec"%string) (Ok tt) (Ok sim) (Ok [1; 1]%Z) (Ok evaluation)
    (fun _ => app) (fun _ => false).

(** A result with the single key given, paired with its negated key or
    not, over the prices of the other examples. *)
Definition single (key : string) (paired : bool) : call_result :=
  mkCallResult (PyFloat 10)
    ((key, NdArray [11; 13]) ::
     (if paired then [(String "-"%char key, NdArray [9; 11])] else [])).

Definition app_single (key : string) (paired : bool) : application :=
  mkApp (<[ id := single key paired ]> ∅) prices.

(** The store stays empty and the very first wait is signalled. *)
Definition world_signalled_early : world :=
  mkWorld 2 "monthly" false None
    (Ok "spec"%string) (Ok tt) (Ok sim) (Ok [1; 1]%Z) (Ok evaluation)
    (fun _ => app_empty) (fun _ => true).

End Examples.

(** * Properties *)

(** ** The progress tracker *)

Module TrackerFacts.

Import Tracker.
Local Open Scope Z_scope.

Lemma Qgtb_half (a c : Z) :
  Qgtb (inject_Z a) ((1 # 2) * inject_Z c) = (c <? 2 * a).
Proof.
  unfold Qgtb, Qle_bool, inject_Z, Qmult; simpl.
  change (Z.pos (2 * 1)) with 2.
  destruct (Z.leb_spec (a * 2) (1 * c * 1)), (Z.ltb_spec c (2 * a)); simpl; lia.
Qed.

Lemma push_unfold (now : Z) (self : state) :
  push now self =
  if total_cost self <? 2 * (len (times self) + 1)
  then tl (times self ++ [now])
  else times self ++ [now].
Proof.
  unfold push. rewrite Qgtb_half. unfold len.
  rewrite length_app. simpl.
  replace (Z.of_nat (length (times self) + 1)) with (Z.of_nat (length (times self)) + 1) by lia.
  reflexivity.
Qed.

Lemma handler_times (now : Z) (ev : event) (self : state) :
  times (fst (count_result_values_computed now ev self)) = push now self.
Proof.
  unfold count_result_values_computed.
  repeat (match goal with |- context [match ?x with _ => _ end] => destruct x end;
          simpl; try reflexivity).
Qed.

Lemma handler_total_cost (now : Z) (ev : event) (self : state) :
  total_cost (fst (count_result_values_computed now ev self)) = total_cost self.
Proof.
  unfold count_result_values_computed.
  repeat (match goal with |- context [match ?x with _ => _ end] => destruct x end;
          simpl; try reflexivity).
Qed.

Lemma run_notifications_snoc (stamps : list Z) (now : Z) (self : state) :
  run_notifications (stamps ++ [now]) self =
  notify (run_notifications stamps self) now.
Proof. unfold run_notifications. rewrite fold_left_app. reflexivity. Qed.

Lemma run_total_cost (stamps : list Z) (self : state) :
  total_cost (run_notifications stamps self) = total_cost self.
Proof.
  induction stamps as [|now stamps IH] using rev_ind; [reflexivity|].
  rewrite run_notifications_snoc. unfold notify.
  rewrite handler_total_cost. exact IH.
Qed.

(** The deque after a push, by cases on whether the oldest sample goes. *)
Lemma push_cases (now : Z) (self : state) :
  (2 * (len (times self) + 1) <= total_cost self /\
   push now self = times self ++ [now]) \/
  (total_cost self < 2 * (len (times self) + 1) /\
   exists oldest, times self ++ [now] = oldest :: push now self).
Proof.
  rewrite push_unfold.
  destruct (Z.ltb_spec (total_cost self) (2 * (len (times self) + 1))) as [Hlt|Hge].
  - right. split; [exact Hlt|].
    destruct (times self ++ [now]) as [|x rest] eqn:E.
    + destruct (times self); discriminate.
    + exists x. reflexivity.
  - left. split; [exact Hge | reflexivity].
Qed.

Lemma window_invariant (cost : Z) (stamps : list Z) :
  window_inv cost stamps (times (run_notifications stamps (init cost))).
Proof.
  induction stamps as [|now stamps IH] using rev_ind.
  - simpl. split; [left; reflexivity|].
    split; [intros _; reflexivity|].
    split; [intros _ H; exact H|].
    exists []. reflexivity.
  - rewrite run_notifications_snoc. unfold notify. rewrite handler_times.
    set (self := run_notifications stamps (init cost)) in *.
    assert (Hc : total_cost self = cost) by (unfold self; apply run_total_cost).
    destruct IH as (Hub & Hsmall & Hbig & evicted & Hfifo).
    destruct (push_cases now self) as [[Hle Hp]|[Hlt [oldest Hp]]].
    + rewrite Hp, Hc in *. repeat split.
      * right. unfold len in *. rewrite length_app. simpl. lia.
      * intros Hlt. unfold len in Hle. lia.
      * intros _ _ H. destruct (times self); discriminate.
      * exists evicted. rewrite Hfifo, app_assoc. reflexivity.
    + rewrite Hc in *.
      assert (Hlen : len (times self) = len (push now self)).
      { apply (f_equal (@length Z)) in Hp. rewrite length_app in Hp.
        simpl in Hp. unfold len. lia. }
      repeat split.
      * destruct Hub as [He|Hle]; [left | right; lia].
        rewrite He in Hlen. destruct (push now self); [reflexivity|discriminate].
      * intros Hs. specialize (Hsmall Hs). rewrite Hsmall in Hlen.
        destruct (push now self); [reflexivity|discriminate].
      * intros H2 _ He. rewrite He in Hlen. unfold len in *. simpl in *. lia.
      * exists (evicted ++ [oldest]).
        rewrite Hfifo, <- !app_assoc. simpl. rewrite <- Hp, app_assoc. reflexivity.
Qed.


Lemma zero_cost_state (stamps : list Z) :
  exists count, run_notifications stamps (init 0) = mkState [] 0 count.
Proof.
  pose proof (window_invariant 0 stamps) as (_ & Hsmall & _).
  pose proof (run_total_cost stamps (init 0)) as Hc.
  destruct (run_notifications stamps (init 0)) as [w c n].
  simpl in *. rewrite Hsmall by lia. subst c. exists n. reflexivity.
Qed.

(** With at least two samples in the deque and a duration that is not
    zero, the handler reports the number of samples, not the number of
    intervals between them, over the duration. *)
Lemma rate_formula (now : Z) (self : state) (r : report) :
  snd (count_result_values_computed now ResultValueComputed self) = Ok r ->
  1 < len (push now self) ->
  (rate r == inject_Z (len (push now self)) / total_seconds (push now self))%Q.
Proof.
  unfold count_result_values_computed, rate_of. intros H Hlen.
  apply Z.ltb_lt in Hlen. rewrite Hlen in H.
  unfold py_div in H.
  repeat (match type of H with context [if ?x then _ else _] => destruct x end;
          simpl in H; try discriminate).
  injection H as <-. simpl. reflexivity.
Qed.

(** C1.  Two samples one second apart: the handler reports 2 units per
    second, where one interval over one second is 1 unit per second. *)
Theorem rate_of_two_samples_one_second_apart :
  exists r,
    snd (count_result_values_computed 1000000 ResultValueComputed
           (mkState [0] 100 1)) = Ok r /\
    len (push 1000000 (mkState [0] 100 1)) = 2 /\
    (total_seconds (push 1000000%Z (mkState [0%Z] 100%Z 1%Z)) == 1)%Q /\
    (rate r == 2)%Q /\
    ~ (rate r == (2 - 1) / 1)%Q.
Proof.
  eexists. split; [vm_compute; reflexivity|].
  split; [reflexivity|]. split; [reflexivity|]. split; [reflexivity|].
  intros H. vm_compute in H. discriminate.
Qed.

(** C3 as stated fails: with a total cost of 0 the first notification
    raises instead of reporting 100 percent. *)
Lemma zero_cost_first_notification_raises :
  snd (count_result_values_computed 0 ResultValueComputed (init 0))
  = Raise ZeroDivisionError.
Proof. vm_compute. reflexivity. Qed.

(** C3, amended.  With a total cost of 0 every notification leaves the
    deque empty, takes the fallback rate 0.001, computes the eta with it,
    increments the counter and then raises [ZeroDivisionError] where the
    percentage divides by the total cost; nothing is reported. *)
Theorem zero_cost_notification_raises (stamps : list Z) (now : Z) :
  let self := run_notifications stamps (init 0) in
  rate_of (push now self) = Ok (1 # 1000)%Q /\
  is_ok (py_div (inject_Z (total_cost self - result_values_computed_count self))
           (1 # 1000)%Q) = true /\
  count_result_values_computed now ResultValueComputed self =
    (mkState [] 0 (result_values_computed_count self + 1),
     Raise ZeroDivisionError).
Proof.
  destruct (zero_cost_state stamps) as [count ->]. simpl.
  split; [reflexivity|]. split; reflexivity.
Qed.

(** C4 as stated fails: with a total cost of 1 the deque is empty after
    the first notification, not of length 1 or more. *)
Lemma unit_cost_window_is_empty :
  ~ (1 <= length (times (run_notifications [0%Z] (init 1%Z))))%nat.
Proof. vm_compute. lia. Qed.

(** C4, amended.  After any number of notifications the deque is no longer
    than [max(1, total_cost / 2)]; it holds at least one sample when the
    total cost is 2 or more and a notification has been handled, and is
    empty when the total cost is below 2; it is always the newest part of
    the timestamps seen, in their order: what was dropped is older than
    everything kept. *)
Theorem window_length_bounded (cost : Z) (stamps : list Z) :
  let window := times (run_notifications stamps (init cost)) in
  (inject_Z (len window) <= Qmax 1 (inject_Z cost / 2))%Q /\
  (2 <= cost -> stamps <> [] -> (1 <= length window)%nat) /\
  (cost < 2 -> window = []) /\
  exists evicted, stamps = evicted ++ window.
Proof.
  intros window.
  destruct (window_invariant cost stamps) as (Hub & Hsmall & Hbig & Hfifo).
  fold window in Hub, Hsmall, Hbig, Hfifo.
  split; [|split; [|split]]; try assumption.
  - apply Q.max_le_iff.
    destruct Hub as [->|Hle].
    + left. vm_compute. discriminate.
    + right. unfold Qle, Qdiv, Qmult, Qinv, inject_Z. simpl. lia.
  - intros H2 Hne. specialize (Hbig H2 Hne).
    destruct window; [congruence | simpl; lia].
Qed.

(** A run with total cost 5 and six notifications: two samples are kept. *)
Lemma window_length_bounded_witness :
  (1 <= length (times (run_notifications [1; 2; 3; 4; 5; 6]%Z (init 5%Z))))%nat.
Proof.
  apply (window_length_bounded 5 [1; 2; 3; 4; 5; 6]); [lia | discriminate].
Defined.

End TrackerFacts.

(** ** The wait loop and the subscriptions of [run] *)

Module RunnerFacts.

Import Aggregator Runner.
Local Open Scope nat_scope.

Lemma wait_loop_from (id : call_result_id) (app_at : nat -> application)
    (wait : nat -> bool) (fuel start : nat) (e : exit) :
  wait_loop id app_at wait fuel start = Some e <->
  start <= turn_of e < start + fuel /\
  (forall n, start <= n < turn_of e ->
     contains (app_at n) id = false /\ wait n = false) /\
  match e with
  | Found turn => contains (app_at turn) id = true
  | Signalled turn => contains (app_at turn) id = false /\ wait turn = true
  end.
Proof.
  revert start. induction fuel as [|fuel IH]; intros start; simpl.
  - split; [discriminate | intros [H _]; lia].
  - destruct (contains (app_at start) id) eqn:Hc.
    + split.
      * intros [= <-]. simpl.
        split; [lia|]. split; [intros n Hn; lia | exact Hc].
      * intros (Hr & Hbefore & He).
        destruct (Nat.eq_dec (turn_of e) start) as [Heq|Hne].
        -- destruct e as [t|t]; simpl in *; subst t; [reflexivity|].
           destruct He; congruence.
        -- destruct (Hbefore start) as [Hf _]; [lia | congruence].
    + destruct (wait start) eqn:Hw.
      * split.
        -- intros [= <-]. simpl.
           split; [lia|]. split; [intros n Hn; lia | split; assumption].
        -- intros (Hr & Hbefore & He).
           destruct (Nat.eq_dec (turn_of e) start) as [Heq|Hne].
           ++ destruct e as [t|t]; simpl in *; subst t; [congruence|reflexivity].
           ++ destruct (Hbefore start) as [_ Hf]; [lia | congruence].
      * rewrite IH. split.
        -- intros (Hr & Hbefore & He).
           split; [lia|]. split; [|exact He].
           intros n Hn. destruct (Nat.eq_dec n start) as [->|Hne];
             [split; assumption | apply Hbefore; lia].
        -- intros (Hr & Hbefore & He).
           assert (turn_of e <> start).
           { intros Heq. destruct e as [t|t]; simpl in *; subst t.
             - congruence.
             - destruct He; congruence. }
           split; [lia|]. split; [|exact He].
           intros n Hn; apply Hbefore; lia.
Qed.

(** C2 as stated fails: the store never holds the id, the first wait is
    signalled, and the loop is left all the same; [run] goes on to read the
    result and fails on the missing key. *)
Lemma wait_loop_left_on_signal_alone :
  wait_loop Examples.id (app_at Examples.world_signalled_early)
    (wait Examples.world_signalled_early) 1 0 = Some (Signalled 0) /\
  (forall n, contains (app_at Examples.world_signalled_early n) Examples.id = false) /\
  run 7 Examples.world_signalled_early 1 [] =
    Some ([completion_filter 7; unit_counter 7], Raise KeyError).
Proof.
  split; [vm_compute; reflexivity|].
  split; [intros n; vm_compute; reflexivity | vm_compute; reflexivity].
Qed.

(** C2, amended.  The loop is left at the first turn at which the id is in
    the store when the condition is checked, or at which the wait returns
    true: in the first case the id is present; in the second the loop
    breaks without another look at the store, the id being absent at the
    last check.  After a wait that timed out the store is checked again.
    With fuel for that many turns the loop does return. *)
Theorem wait_loop_exit (id : call_result_id) (app_at : nat -> application)
    (wait : nat -> bool) (fuel : nat) (e : exit) :
  wait_loop id app_at wait fuel 0 = Some e <->
  turn_of e < fuel /\
  (forall n, n < turn_of e ->
     contains (app_at n) id = false /\ wait n = false) /\
  match e with
  | Found turn => contains (app_at turn) id = true
  | Signalled turn => contains (app_at turn) id = false /\ wait turn = true
  end.
Proof.
  rewrite wait_loop_from. simpl. split.
  - intros (Hr & Hbefore & He).
    split; [lia|]. split; [|exact He]. intros n Hn; apply Hbefore; lia.
  - intros (Hr & Hbefore & He).
    split; [lia|]. split; [|exact He]. intros n Hn; apply Hbefore; lia.
Qed.

(** Two timed-out waits, then the id is found at the third check. *)
Lemma wait_loop_exit_witness :
  wait_loop Examples.id
    (fun n => if Nat.ltb n 2 then Examples.app_empty else Examples.app_done)
    (fun _ => false) 5 0 = Some (Found 2).
Proof.
  apply (wait_loop_exit Examples.id
           (fun n => if Nat.ltb n 2 then Examples.app_empty else Examples.app_done)
           (fun _ => false) 5 (Found 2)).
  split; [simpl; lia|]. split; [|vm_compute; reflexivity].
  intros n Hn. simpl in Hn.
  destruct n as [|[|n]]; [split; vm_compute; reflexivity .. | lia].
Defined.

(** What [run] leaves on the bus once the evaluation has been started:
    both subscriptions when it raises, neither of its own when it returns. *)
Lemma run_bus (self : nat) (w : world) (fuel : nat) (b b' : bus)
    (started : contract_valuation * market_simulation) (r : result unit) :
  start self w b = (b ++ [completion_filter self; unit_counter self], Ok started) ->
  run self w fuel b = Some (b', r) ->
  match r with
  | Raise _ => b' = b ++ [completion_filter self; unit_counter self]
  | Ok _ => b' = remove_first (completion_filter self)
                   (remove_first (unit_counter self)
                      (b ++ [completion_filter self; unit_counter self]))
  end.
Proof.
  intros Hs. unfold run. rewrite Hs. destruct started as [evaluation sim].
  destruct (wait_loop _ _ _ _ _) as [e|]; [|discriminate].
  intros [= H]. revert H.
  unfold finish, lift, unsubscribe, mbind, M_bind, mret, M_ret.
  destruct (read_results _ _ _ _) as [x|err]; [|intros [= <- <-]; reflexivity].
  destruct (negb _ && _)%bool.
  - destruct (plot_results _); intros [= <- <-]; reflexivity.
  - intros [= <- <-]; reflexivity.
Qed.

(** C9.  A run whose read fails on a missing price, and a run whose plot
    fails on the periodisation tag, both end with the two subscriptions
    still on the bus; the run that succeeds removes them. *)
Theorem failed_run_keeps_both_subscriptions :
  run 7 (Examples.world_of Examples.app_price_missing "monthly") 1 [] =
    Some ([completion_filter 7; unit_counter 7],
          Raise (PriceUnavailable (Date 2011 2 1))) /\
  run 7 (Examples.world_of Examples.app_done "weekly") 1 [] =
    Some ([completion_filter 7; unit_counter 7],
          Raise (NotImplementedError "weekly")) /\
  run 7 (Examples.world_of Examples.app_done "monthly") 1 [] =
    Some ([], Ok tt).
Proof.
  split; [|split]; vm_compute; reflexivity.
Qed.

End RunnerFacts.

(** ** Arrays *)

Module NumpyFacts.

Import Numpy.
Local Open Scope nat_scope.

Lemma nth_map_lt {A B} (f : A -> B) (l : list A) (i : nat) (d : B) (d' : A) :
  i < length l -> nth i (map f l) d = f (nth i l d').
Proof.
  revert i. induction l as [|x l IH]; intros [|i] H; simpl in *; try lia.
  - reflexivity.
  - apply IH. lia.
Qed.

Lemma nth_zip_with_lt {A B C} (f : A -> B -> C) (a : list A) (b : list B)
    (i : nat) (d : C) (da : A) (db : B) :
  i < length a -> i < length b ->
  nth i (zip_with f a b) d = f (nth i a da) (nth i b db).
Proof.
  revert b i. induction a as [|x a IH]; intros [|y b] [|i] Ha Hb;
    simpl in *; try lia.
  - reflexivity.
  - apply IH; lia.
Qed.

Lemma length_zip_with_same {A B C} (f : A -> B -> C) (a : list A) (b : list B) :
  length a = length b -> length (zip_with f a b) = length b.
Proof.
  revert b. induction a as [|x a IH]; intros [|y b] H; simpl in *; try lia.
  rewrite IH; lia.
Qed.

Lemma broadcast_same_length (f : R -> R -> R) (a b : ndarray) :
  length a = length b -> broadcast f a b = Ok (zip_with f a b).
Proof.
  intros H. unfold broadcast. rewrite H, Nat.eqb_refl. reflexivity.
Qed.

Lemma iadd_same_length (t h : ndarray) :
  length h = length t -> iadd t h = Ok (zip_with Rplus t h).
Proof.
  intros H. unfold iadd. rewrite H, Nat.eqb_refl. reflexivity.
Qed.

(** [t += h] keeps the shape of [t]. *)
Lemma iadd_length (t h t' : ndarray) :
  iadd t h = Ok t' -> length t' = length t.
Proof.
  unfold iadd. destruct (Nat.eqb_spec (length h) (length t)) as [E|_].
  - intros [= <-]. rewrite length_zip_with_same; lia.
  - destruct h as [|y [|? ?]]; try discriminate.
    intros [= <-]. apply length_map.
Qed.

Lemma zeros_length (n : nat) : length (zeros n) = n.
Proof. apply repeat_length. Qed.

Lemma nth_zeros (n i : nat) : nth i (zeros n) 0%R = 0%R.
Proof.
  unfold zeros. revert i. induction n as [|n IH]; intros [|i]; simpl; auto.
Qed.

End NumpyFacts.

(** ** The sensitivity aggregator *)

Module AggregatorFacts.

Import Py Numpy Aggregator NumpyFacts.
Local Open Scope nat_scope.

Ltac unfold_bind := unfold mbind, result_bind, fmap, result_fmap in *.

(** *** The per-path vectors of a bucket *)

Lemma hedge_units_of_arrays (vp vn price : ndarray) (eps : R) :
  length vp = length price -> length vn = length price ->
  hedge_units_of (NdArray vp) (NdArray vn) eps price =
    Ok (negative (zip_with Rdiv (zip_with Rminus vp vn) (scale (2 * eps) price))).
Proof.
  intros Hp Hn. unfold hedge_units_of, subtract. unfold_bind.
  rewrite broadcast_same_length by lia. simpl.
  rewrite broadcast_same_length; [reflexivity|].
  unfold scale. rewrite length_map, length_zip_with_same; lia.
Qed.

Lemma hedge_units_of_length (vp vn price h : ndarray) (eps : R) :
  length vp = length price -> length vn = length price ->
  hedge_units_of (NdArray vp) (NdArray vn) eps price = Ok h ->
  length h = length price.
Proof.
  intros Hp Hn. rewrite hedge_units_of_arrays by assumption.
  intros [= <-]. unfold negative, scale.
  rewrite length_map, length_zip_with_same; rewrite length_map; [reflexivity|].
  rewrite length_zip_with_same; lia.
Qed.

Lemma hedge_units_of_nth (vp vn price h : ndarray) (eps : R) (i : nat) :
  length vp = length price -> length vn = length price ->
  hedge_units_of (NdArray vp) (NdArray vn) eps price = Ok h ->
  i < length price ->
  nth i h 0%R =
    (- ((nth i vp 0 - nth i vn 0) / (2 * eps * nth i price 0)))%R.
Proof.
  intros Hp Hn. rewrite hedge_units_of_arrays by assumption.
  intros [= <-] Hi. unfold negative, scale.
  assert (Hd : length (zip_with Rminus vp vn) = length price)
    by (rewrite length_zip_with_same; lia).
  rewrite (nth_map_lt _ _ _ _ 0%R)
    by (rewrite length_zip_with_same; rewrite length_map; lia).
  rewrite (nth_zip_with_lt _ _ _ _ _ 0%R 0%R) by (rewrite ?length_map; lia).
  rewrite (nth_zip_with_lt _ _ _ _ _ 0%R 0%R) by lia.
  rewrite (nth_map_lt _ _ _ _ 0%R) by lia.
  reflexivity.
Qed.

Lemma cash_in_of_same_length (h price : ndarray) :
  length h = length price ->
  cash_in_of h price = Ok (zip_with Rmult (negative h) price).
Proof.
  intros H. unfold cash_in_of, multiply.
  apply broadcast_same_length. unfold negative. rewrite length_map. exact H.
Qed.

Lemma cash_in_of_nth (h price c : ndarray) (i : nat) :
  length h = length price ->
  cash_in_of h price = Ok c ->
  i < length price ->
  length c = length price /\
  nth i c 0%R = (- nth i h 0 * nth i price 0)%R.
Proof.
  intros H. rewrite cash_in_of_same_length by assumption.
  intros [= <-] Hi. unfold negative. split.
  - rewrite length_zip_with_same; rewrite ?length_map; lia.
  - rewrite (nth_zip_with_lt _ _ _ _ _ 0%R 0%R) by (rewrite ?length_map; lia).
    rewrite (nth_map_lt _ _ _ _ 0%R) by lia. reflexivity.
Qed.

(** *** Keys *)

Lemma split_dash_nonempty (s : string) : split_dash s <> [].
Proof.
  destruct s as [|c s]; simpl; [discriminate|].
  destruct (Ascii.eqb c "-"); [discriminate|].
  destruct (split_dash s); discriminate.
Qed.

(** The first component is the whole key exactly when there is no other. *)
Lemma split_dash_head (s h : string) (t : list string) :
  split_dash s = h :: t -> (h = s <-> t = []).
Proof.
  revert h t. induction s as [|c s IH]; intros h t; simpl.
  - intros [= <- <-]. tauto.
  - destruct (Ascii.eqb c "-") eqn:Hc.
    + intros [= <- <-]. split; [discriminate|].
      intros H. destruct (split_dash_nonempty s H).
    + destruct (split_dash s) as [|h' t'] eqn:Hs.
      * destruct (split_dash_nonempty s Hs).
      * intros [= <- <-]. specialize (IH h' t' eq_refl).
        split; [intros [= H]; tauto | intros H; f_equal; tauto].
Qed.

Lemma kind_of_spot (k : string) :
  kind_of k = Spot <-> split_dash k = [k].
Proof.
  unfold kind_of.
  destruct (split_dash k) as [|h t] eqn:Hs; [destruct (split_dash_nonempty k Hs)|].
  simpl. pose proof (split_dash_head k h t Hs) as Hh.
  destruct (String.eqb_spec h k) as [E|NE].
  - split; [|reflexivity]. intros _. rewrite E. f_equal. tauto.
  - split.
    + destruct (Nat.ltb 2 (S (length t))); discriminate.
    + intros [= E _]. contradiction.
Qed.

Lemma kind_of_two_components (k c y : string) :
  split_dash k = [c; y] -> kind_of k = Ignored.
Proof.
  intros Hs. unfold kind_of. rewrite Hs. simpl.
  destruct (String.eqb_spec c k) as [E|NE]; [|reflexivity].
  apply (split_dash_head k c [y] Hs) in E. discriminate.
Qed.

Lemma kind_of_ignored (k : string) :
  kind_of k = Ignored -> length (split_dash k) = 2.
Proof.
  unfold kind_of.
  destruct (split_dash k) as [|h t] eqn:Hs; [destruct (split_dash_nonempty k Hs)|].
  simpl. pose proof (split_dash_head k h t Hs) as Hh.
  destruct (String.eqb_spec h k) as [E|NE]; [discriminate|].
  destruct t as [|y [|z t]]; simpl; try discriminate; [|reflexivity].
  exfalso. apply NE. tauto.
Qed.

(** *** The loop body *)

Section Body.

Variable app : application.
Variable cr : call_result.
Variable sim : market_simulation.
Variable n : nat.

Lemma bucket_by_kind (st : acc) (k : string) :
  bucket app cr sim n st k =
  (pv ← dict_get (perturbed_values cr) k;
   pvn ← dict_get (perturbed_values cr) (String "-"%char k);
   match kind_of k with
   | Spot => spot_bucket app sim n st k k pv pvn
   | Dated =>
     dated_bucket app sim n st k (hd EmptyString (split_dash k)) (split_dash k)
       pv pvn
   | Ignored => Ok st
   end).
Proof.
  unfold bucket, kind_of. unfold_bind.
  destruct (dict_get _ k); [|reflexivity].
  destruct (dict_get _ _); [|reflexivity].
  destruct (String.eqb_spec (hd EmptyString (split_dash k)) k) as [E|NE].
  - rewrite E. reflexivity.
  - destruct (Nat.ltb 2 (length (split_dash k))); reflexivity.
Qed.

(** What a successful turn of the loop has done, by the kind of its key. *)
Lemma bucket_inv (st st' : acc) (k : string) :
  bucket app cr sim n st k = Ok st' ->
  match kind_of k with
  | Ignored => st' = st
  | Spot =>
    exists price h c,
      bucket_price app sim k = Some (None, price) /\
      vectors_of cr sim k price = Ok (h, c) /\
      st' = mkAcc (total_cash_in st) (total_units st)
              (periods st ++ [spot_period (sqrt_path_count n) k price h c])
  | Dated =>
    exists d price h c T C,
      bucket_price app sim k = Some (Some d, price) /\
      vectors_of cr sim k price = Ok (h, c) /\
      iadd (total_units st) h = Ok T /\
      iadd (total_cash_in st) c = Ok C /\
      st' = mkAcc C T
              (periods st ++ [dated_period (sqrt_path_count n) k d price h c T C])
  end.
Proof.
  rewrite bucket_by_kind. unfold vectors_of, bucket_price. unfold_bind.
  destruct (dict_get _ k) as [pv|]; [|discriminate].
  destruct (dict_get _ _) as [pvn|]; [|discriminate].
  destruct (kind_of k).
  - unfold spot_bucket, repo_get. unfold_bind.
    destruct (simulated_price_repo app !! _) as [price|] eqn:Ep; [|discriminate].
    destruct (hedge_units_of _ _ _ _) as [h|] eqn:Eh; [|discriminate].
    destruct (cash_in_of _ _) as [c|] eqn:Ec; [|discriminate].
    intros [= <-]. exists price, h, c.
    rewrite Eh, Ec. repeat split; reflexivity.
  - unfold dated_bucket. unfold_bind.
    destruct (price_date_of _) as [d|]; [|discriminate].
    destruct (simulated_price_repo app !! _) as [price|] eqn:Ep; [|discriminate].
    destruct (hedge_units_of _ _ _ _) as [h|] eqn:Eh; [|discriminate].
    destruct (cash_in_of _ _) as [c|] eqn:Ec; [|discriminate].
    destruct (iadd (total_units st) h) as [T|] eqn:ET; [|discriminate].
    destruct (iadd (total_cash_in st) c) as [C|] eqn:EC; [|discriminate].
    intros [= <-]. exists d, price, h, c, T, C.
    rewrite Eh, Ec. repeat split; solve [reflexivity | assumption].
  - intros [= <-]. reflexivity.
Qed.

(** The other way round: the bucket of a key whose price and vectors are
    there. *)
Lemma bucket_spot (st : acc) (k : string) (price h c : ndarray) :
  bucket_price app sim k = Some (None, price) ->
  vectors_of cr sim k price = Ok (h, c) ->
  bucket app cr sim n st k =
    Ok (mkAcc (total_cash_in st) (total_units st)
          (periods st ++ [spot_period (sqrt_path_count n) k price h c])).
Proof.
  rewrite bucket_by_kind. unfold vectors_of, bucket_price. unfold_bind.
  destruct (dict_get _ k) as [pv|]; [|discriminate].
  destruct (dict_get _ _) as [pvn|]; [|discriminate].
  destruct (kind_of k); try discriminate.
  - unfold spot_bucket, repo_get. unfold_bind.
    destruct (simulated_price_repo app !! _) as [price'|]; [|discriminate].
    simpl. intros [= <-].
    destruct (hedge_units_of _ _ _ _) as [h'|]; [|discriminate].
    destruct (cash_in_of _ _) as [c'|]; [|discriminate].
    intros [= <- <-]. reflexivity.
  - destruct (price_date_of _); [|discriminate].
    destruct (simulated_price_repo app !! _); discriminate.
Qed.

Lemma bucket_dated (st : acc) (k : string) (d : date) (price h c T C : ndarray) :
  bucket_price app sim k = Some (Some d, price) ->
  vectors_of cr sim k price = Ok (h, c) ->
  iadd (total_units st) h = Ok T ->
  iadd (total_cash_in st) c = Ok C ->
  bucket app cr sim n st k =
    Ok (mkAcc C T
          (periods st ++ [dated_period (sqrt_path_count n) k d price h c T C])).
Proof.
  rewrite bucket_by_kind. unfold vectors_of, bucket_price. unfold_bind.
  destruct (dict_get _ k) as [pv|]; [|discriminate].
  destruct (dict_get _ _) as [pvn|]; [|discriminate].
  destruct (kind_of k); try discriminate.
  - destruct (simulated_price_repo app !! _); discriminate.
  - unfold dated_bucket. unfold_bind.
    destruct (price_date_of _) as [d'|]; [|discriminate].
    destruct (simulated_price_repo app !! _) as [price'|]; [|discriminate].
    simpl. intros [= <- <-].
    destruct (hedge_units_of _ _ _ _) as [h'|]; [|discriminate].
    destruct (cash_in_of _ _) as [c'|]; [|discriminate].
    intros [= <- <-]. intros -> ->. reflexivity.
Qed.

(** A dated key whose price is not in the store stops the loop with the
    date, whatever the state, once its two values have been found. *)
Lemma bucket_price_unavailable (st : acc) (k : string) (d : date) :
  kind_of k = Dated ->
  price_date_of (split_dash k) = Ok d ->
  simulated_price_repo app !!
    make_simulated_price_id (simulation_id sim) (hd EmptyString (split_dash k)) d d
    = None ->
  bucket app cr sim n st k =
    (_ ← dict_get (perturbed_values cr) k;
     _ ← dict_get (perturbed_values cr) (String "-"%char k);
     Raise (PriceUnavailable d)).
Proof.
  intros Hk Hd Hp. rewrite bucket_by_kind, Hk. unfold_bind.
  destruct (dict_get _ k) as [pv|]; [|reflexivity].
  destruct (dict_get _ _) as [pvn|]; [|reflexivity].
  unfold dated_bucket. unfold_bind. rewrite Hd, Hp. reflexivity.
Qed.

Lemma bucket_periods (st st' : acc) (k : string) :
  bucket app cr sim n st k = Ok st' ->
  periods st' = periods st \/
  exists p, periods st' = periods st ++ [p] /\ commodity p = k /\
            kind_of k <> Ignored.
Proof.
  intros H. apply bucket_inv in H. destruct (kind_of k).
  - destruct H as (price & h & c & _ & _ & ->). right. simpl.
    eexists. split; [reflexivity|]. split; [reflexivity | discriminate].
  - destruct H as (d & price & h & c & T & C & _ & _ & _ & _ & ->). right. simpl.
    eexists. split; [reflexivity|]. split; [reflexivity | discriminate].
  - left. rewrite H. reflexivity.
Qed.

(** *** The loop *)

Lemma for_each_app (pre post : list string) (st : acc) :
  for_each app cr sim n (pre ++ post) st =
  (s ← for_each app cr sim n pre st; for_each app cr sim n post s).
Proof.
  revert st. induction pre as [|k pre IH]; intros st; simpl; [reflexivity|].
  unfold_bind. destruct (bucket app cr sim n st k); [apply IH | reflexivity].
Qed.

(** A loop that ends has passed every key: the keys before it took the
    loop to some state, and the body succeeded there. *)
Lemma for_each_split (pre post : list string) (k : string) (st0 st : acc) :
  for_each app cr sim n (pre ++ k :: post) st0 = Ok st ->
  exists sb sa,
    for_each app cr sim n pre st0 = Ok sb /\
    bucket app cr sim n sb k = Ok sa /\
    for_each app cr sim n post sa = Ok st.
Proof.
  rewrite for_each_app. unfold_bind.
  destruct (for_each app cr sim n pre st0) as [sb|]; [|discriminate].
  simpl. unfold_bind.
  destruct (bucket app cr sim n sb k) as [sa|] eqn:Hk; [|discriminate].
  intros H. exists sb, sa. repeat split; assumption || reflexivity.
Qed.

(** Where an entry of the final list comes from. *)
Lemma period_origin (names : list string) (st0 st : acc) (p : period) :
  for_each app cr sim n names st0 = Ok st ->
  In p (periods st) ->
  In p (periods st0) \/
  exists pre post sb sa,
    names = pre ++ commodity p :: post /\
    for_each app cr sim n pre st0 = Ok sb /\
    bucket app cr sim n sb (commodity p) = Ok sa /\
    periods sa = periods sb ++ [p].
Proof.
  revert st. induction names as [|k names IH] using rev_ind; intros st.
  - simpl. intros [= <-]. auto.
  - intros H Hin.
    destruct (for_each_split names [] k st0 st H) as (sb & sa & Hpre & Hk & Hpost).
    simpl in Hpost. injection Hpost as ->.
    destruct (bucket_periods sb st k Hk) as [E|(p' & E & Hc & _)].
    + rewrite E in Hin.
      destruct (IH sb Hpre Hin) as [?|(pre & post & sb' & sa' & -> & ? & ? & ?)];
        [auto|]. right.
      exists pre, (post ++ [k]), sb', sa'. rewrite <- app_assoc.
      repeat split; assumption.
    + rewrite E in Hin. apply in_app_or in Hin. destruct Hin as [Hin|[<-|[]]].
      * destruct (IH sb Hpre Hin) as [?|(pre & post & sb' & sa' & -> & ? & ? & ?)];
          [auto|]. right.
        exists pre, (post ++ [k]), sb', sa'. rewrite <- app_assoc.
        repeat split; assumption.
      * right. exists names, [], sb, st. rewrite Hc.
        repeat split; assumption.
Qed.

End Body.

(** *** The order of the keys *)

Lemma insert_by_perm (x : list Z * string) (l : list (list Z * string)) :
  Permutation (insert_by x l) (x :: l).
Proof.
  induction l as [|y l IH]; simpl; [reflexivity|].
  destruct (list_ltb (fst y) (fst x)); [|reflexivity].
  rewrite IH. apply perm_swap.
Qed.

Lemma sort_by_key_perm (l : list (list Z * string)) :
  Permutation (sort_by_key l) l.
Proof.
  induction l as [|x l IH]; simpl; [reflexivity|].
  rewrite insert_by_perm. apply perm_skip, IH.
Qed.

Lemma keyed_names (names : list string) (l : list (list Z * string)) :
  keyed names = Ok l -> map snd l = names.
Proof.
  revert l. induction names as [|x names IH]; intros l; simpl.
  - intros [= <-]. reflexivity.
  - unfold_bind. destruct (sort_key x); [|discriminate].
    destruct (keyed names) as [rest|]; [|discriminate].
    intros [= <-]. simpl. f_equal. apply IH. reflexivity.
Qed.

(** The sort keeps the keys: it only changes their order. *)
Lemma sorted_perm (names l : list string) :
  sorted names = Ok l -> Permutation l names.
Proof.
  unfold sorted. unfold_bind.
  destruct (keyed names) as [kl|] eqn:Hk; [|discriminate].
  intros [= <-]. rewrite <- (keyed_names names kl Hk).
  apply Permutation_map, sort_by_key_perm.
Qed.

Lemma dict_get_In {V} (d : list (string * V)) (k : string) (v : V) :
  dict_get d k = Ok v -> In (k, v) d.
Proof.
  induction d as [|[k' v'] d IH]; simpl; [discriminate|].
  destruct (String.eqb_spec k' k) as [->|NE].
  - intros [= ->]. auto.
  - auto.
Qed.

Lemma dict_get_key {V} (d : list (string * V)) (k : string) :
  In k (map fst d) -> exists v, dict_get d k = Ok v.
Proof.
  induction d as [|[k' v'] d IH]; simpl; [intros []|].
  destruct (String.eqb_spec k' k) as [->|NE].
  - intros _. eauto.
  - intros [H|H]; [contradiction | auto].
Qed.

(** The keys the loop runs through are keys of the dict. *)
Lemma perturbed_names_keys (cr : call_result) (names : list string) (k : string) :
  perturbed_names cr = Ok names ->
  In k names ->
  In k (map fst (perturbed_values cr)) /\ startswith_dash k = false.
Proof.
  unfold perturbed_names. intros Hs Hin.
  apply sorted_perm in Hs.
  apply (Permutation_in _ Hs) in Hin.
  apply filter_In in Hin. destruct Hin as [Hin Hd].
  split; [exact Hin|]. destruct (startswith_dash k); [discriminate | reflexivity].
Qed.

(** *** [read_results] *)

Lemma read_results_unfold (app : application) (ev : contract_valuation)
    (sim : market_simulation) (n : nat) (cr : call_result) :
  call_result_repo app !!
    make_call_result_id (valuation_id ev) (contract_specification_id ev) = Some cr ->
  read_results app ev sim n =
  (names ← perturbed_names cr;
   st ← for_each app cr sim n names (initial n);
   Ok (snd (fair_value_stats (result_value cr) n),
       fst (fair_value_stats (result_value cr) n), periods st)).
Proof.
  intros H. unfold read_results, repo_get. rewrite H. unfold_bind.
  destruct (fair_value_stats (result_value cr) n). reflexivity.
Qed.

Lemma read_results_inv (app : application) (ev : contract_valuation)
    (sim : market_simulation) (n : nat) (se m : R) (ps : list period) :
  read_results app ev sim n = Ok (se, m, ps) ->
  exists cr names st,
    call_result_repo app !!
      make_call_result_id (valuation_id ev) (contract_specification_id ev) = Some cr /\
    fair_value_stats (result_value cr) n = (m, se) /\
    perturbed_names cr = Ok names /\
    for_each app cr sim n names (initial n) = Ok st /\
    ps = periods st.
Proof.
  destruct (call_result_repo app !!
              make_call_result_id (valuation_id ev) (contract_specification_id ev))
    as [cr|] eqn:Hcr.
  - rewrite (read_results_unfold app ev sim n cr Hcr). unfold_bind.
    destruct (perturbed_names cr) as [names|] eqn:Hn; [|discriminate].
    destruct (for_each app cr sim n names (initial n)) as [st|] eqn:Hst; [|discriminate].
    destruct (fair_value_stats (result_value cr) n) as [m' se'] eqn:Hf.
    simpl. intros [= <- <- <-]. exists cr, names, st.
    repeat split; assumption || reflexivity.
  - unfold read_results, repo_get. rewrite Hcr. discriminate.
Qed.

(** C10.  A key that splits into exactly two components is passed over: the
    loop body leaves the state as it is and raises nothing once the two
    values of the key have been found, and no entry of the list that
    [read_results] returns carries that key. *)
Theorem two_component_key_is_omitted (k c y : string) :
  split_dash k = [c; y] ->
  (forall app cr sim n st,
     is_ok (dict_get (perturbed_values cr) k) = true ->
     is_ok (dict_get (perturbed_values cr) (String "-"%char k)) = true ->
     bucket app cr sim n st k = Ok st) /\
  (forall app ev sim n se m ps,
     read_results app ev sim n = Ok (se, m, ps) ->
     forall p, In p ps -> commodity p <> k).
Proof.
  intros Hs. pose proof (kind_of_two_components k c y Hs) as Hk. split.
  - intros app cr sim n st Hv Hn. rewrite bucket_by_kind, Hk. unfold_bind.
    destruct (dict_get _ k); [|discriminate].
    destruct (dict_get _ _); [reflexivity | discriminate].
  - intros app ev sim n se m ps Hr p Hin Hc.
    destruct (read_results_inv _ _ _ _ _ _ _ Hr) as (cr & names & st & _ & _ & _ & Hl & ->).
    destruct (period_origin app cr sim n names (initial n) st p Hl Hin)
      as [[]|(pre & post & sb & sa & _ & _ & Hb & Hp)].
    apply bucket_inv in Hb. rewrite Hc, Hk in Hb. subst sa.
    apply (f_equal (@length period)) in Hp. rewrite length_app in Hp.
    simpl in Hp. lia.
Qed.

(** The key "GAS-2020" next to a spot key and a monthly key. *)
Lemma two_component_key_is_omitted_witness :
  bucket Examples.app_mixed Examples.mixed Examples.sim 2 (initial 2) "GAS-2020"
    = Ok (initial 2).
Proof.
  apply (two_component_key_is_omitted "GAS-2020" "GAS" "2020");
    vm_compute; reflexivity.
Defined.

(** C8.  A dated key whose simulated price is not in the store makes
    [read_results] raise: it returns no list of periods at all.  When the
    loop reaches that key, the keys before it having been processed and the
    negated key being there, what is raised is the exception for the
    unavailable price, with the date of that key. *)
Theorem missing_price_aborts (app : application) (ev : contract_valuation)
    (sim : market_simulation) (n : nat) (cr : call_result)
    (names : list string) (k : string) (d : date) :
  call_result_repo app !!
    make_call_result_id (valuation_id ev) (contract_specification_id ev) = Some cr ->
  perturbed_names cr = Ok names ->
  In k names ->
  kind_of k = Dated ->
  price_date_of (split_dash k) = Ok d ->
  simulated_price_repo app !!
    make_simulated_price_id (simulation_id sim) (hd EmptyString (split_dash k)) d d
    = None ->
  (exists e, read_results app ev sim n = Raise e) /\
  (forall pre post sb,
     names = pre ++ k :: post ->
     for_each app cr sim n pre (initial n) = Ok sb ->
     is_ok (dict_get (perturbed_values cr) (String "-"%char k)) = true ->
     read_results app ev sim n = Raise (PriceUnavailable d)).
Proof.
  intros Hcr Hnames Hin Hk Hd Hp. split.
  - destruct (read_results app ev sim n) as [[[se m] ps]|e] eqn:Hr; [|eauto].
    exfalso.
    destruct (read_results_inv _ _ _ _ _ _ _ Hr) as (cr' & names' & st & Hcr' & _ & Hn' & Hl & _).
    rewrite Hcr in Hcr'. injection Hcr' as <-.
    rewrite Hnames in Hn'. injection Hn' as <-.
    destruct (in_split _ _ Hin) as (pre & post & ->).
    destruct (for_each_split app cr sim n pre post k _ _ Hl) as (sb & sa & _ & Hb & _).
    apply bucket_inv in Hb. rewrite Hk in Hb.
    destruct Hb as (d' & price & h & c & T & C & Hbp & _).
    unfold bucket_price in Hbp. rewrite Hk, Hd, Hp in Hbp. discriminate.
  - intros pre post sb -> Hpre Hneg.
    rewrite (read_results_unfold app ev sim n cr Hcr), Hnames. unfold_bind.
    rewrite for_each_app. unfold_bind. rewrite Hpre. simpl. unfold_bind.
    rewrite (bucket_price_unavailable app cr sim n sb k d Hk Hd Hp). unfold_bind.
    destruct (perturbed_names_keys cr _ k Hnames Hin) as [Hkey _].
    destruct (dict_get_key _ _ Hkey) as [v ->].
    destruct (dict_get _ _); [reflexivity | discriminate].
Qed.

(** January is priced, February is not: the read stops at February. *)
Lemma missing_price_aborts_witness :
  read_results Examples.app_price_missing Examples.evaluation Examples.sim 2
    = Raise (PriceUnavailable (Date 2011 2 1)).
Proof.
  refine (proj2 (missing_price_aborts Examples.app_price_missing
            Examples.evaluation Examples.sim 2 Examples.two_months
            ["GAS-2011-1"; "GAS-2011-2"]%string "GAS-2011-2" (Date 2011 2 1)
            _ _ _ _ _ _)
          ["GAS-2011-1"%string] [] _ _ _ _);
    try (vm_compute; reflexivity).
  simpl. right. left. reflexivity.
Defined.

(** The vectors of a key whose two values are arrays of the length of the
    price vector. *)
Lemma vectors_of_arrays (cr : call_result) (sim : market_simulation)
    (k : string) (vp vn price : ndarray) :
  dict_get (perturbed_values cr) k = Ok (NdArray vp) ->
  dict_get (perturbed_values cr) (String "-"%char k) = Ok (NdArray vn) ->
  length vp = length price -> length vn = length price ->
  exists h c,
    vectors_of cr sim k price = Ok (h, c) /\
    hedge_units_of (NdArray vp) (NdArray vn) (perturbation_factor sim) price = Ok h /\
    cash_in_of h price = Ok c /\
    length h = length price /\ length c = length price.
Proof.
  intros Hv Hn Lp Ln. unfold vectors_of. rewrite Hv, Hn. unfold_bind.
  pose proof (hedge_units_of_arrays vp vn price (perturbation_factor sim) Lp Ln) as Hh.
  pose proof (hedge_units_of_length vp vn price _ (perturbation_factor sim) Lp Ln Hh) as Lh.
  rewrite Hh.
  pose proof (cash_in_of_same_length _ price Lh) as Hc. rewrite Hc.
  eexists _, _. repeat split; try reflexivity; try assumption.
  rewrite length_zip_with_same; unfold negative in *;
    rewrite ?length_map in *; lia.
Qed.

(** The loop body on a key whose value and negated value are both there,
    as vectors with one sample per path, and whose bucket has its price: it
    succeeds in any state whose totals have one entry per path, and the
    entry it appends gives the statistics of two vectors that satisfy the
    two formulas at every path. *)
Lemma bucket_hedge_units_and_cash_in (app : application) (cr : call_result)
    (sim : market_simulation) (n : nat) (st : acc) (k : string)
    (vp vn price : ndarray) (when : option date) :
  dict_get (perturbed_values cr) k = Ok (NdArray vp) ->
  dict_get (perturbed_values cr) (String "-"%char k) = Ok (NdArray vn) ->
  bucket_price app sim k = Some (when, price) ->
  length vp = n -> length vn = n -> length price = n ->
  length (total_units st) = n -> length (total_cash_in st) = n ->
  exists hedge_units cash_in st' p,
    hedge_units_of (NdArray vp) (NdArray vn) (perturbation_factor sim) price
      = Ok hedge_units /\
    cash_in_of hedge_units price = Ok cash_in /\
    length hedge_units = n /\ length cash_in = n /\
    (forall i, i < n ->
       nth i hedge_units 0%R =
         (- ((nth i vp 0 - nth i vn 0)
             / (2 * perturbation_factor sim * nth i price 0)))%R /\
       nth i cash_in 0%R = (- nth i hedge_units 0 * nth i price 0)%R) /\
    bucket app cr sim n st k = Ok st' /\
    periods st' = periods st ++ [p] /\
    commodity p = k /\ date_of p = when /\
    hedge_units_mean p = mean hedge_units /\
    hedge_units_stderr p = (std hedge_units / sqrt (INR n))%R /\
    cash_in_mean p = mean cash_in /\
    cash_in_stderr p = (std cash_in / sqrt (INR n))%R.
Proof.
  intros Hv Hn Hbp Lp Ln Lprice Lu Lc.
  destruct (vectors_of_arrays cr sim k vp vn price Hv Hn)
    as (h & c & Hvec & Hh & Hc & Lh & Lcash); try lia.
  assert (Hform : forall i, i < n ->
    nth i h 0%R = (- ((nth i vp 0 - nth i vn 0)
                      / (2 * perturbation_factor sim * nth i price 0)))%R /\
    nth i c 0%R = (- nth i h 0 * nth i price 0)%R).
  { intros i Hi. split.
    - apply (hedge_units_of_nth vp vn price h); try lia; assumption.
    - apply (cash_in_of_nth h price c i); try lia; assumption. }
  assert (Hkind : (kind_of k = Spot /\ when = None) \/
                  (kind_of k = Dated /\ exists d, when = Some d)).
  { unfold bucket_price in Hbp. destruct (kind_of k); try discriminate.
    - left. destruct (simulated_price_repo app !! _); [|discriminate].
      simpl in Hbp. injection Hbp as <- _. auto.
    - right. destruct (price_date_of _) as [d|]; [|discriminate].
      destruct (simulated_price_repo app !! _); [|discriminate].
      simpl in Hbp. injection Hbp as <- _. eauto. }
  destruct Hkind as [[Hk ->]|[Hk [d ->]]].
  - exists h, c. eexists. eexists.
    split; [exact Hh|]. split; [exact Hc|].
    split; [lia|]. split; [lia|]. split; [exact Hform|].
    split; [apply (bucket_spot app cr sim n st k price h c Hbp Hvec)|].
    simpl. repeat split; reflexivity.
  - destruct (iadd (total_units st) h) as [T|] eqn:HT;
      [|rewrite iadd_same_length in HT by lia; discriminate].
    destruct (iadd (total_cash_in st) c) as [C|] eqn:HC;
      [|rewrite iadd_same_length in HC by lia; discriminate].
    exists h, c. eexists. eexists.
    split; [exact Hh|]. split; [exact Hc|].
    split; [lia|]. split; [lia|]. split; [exact Hform|].
    split; [apply (bucket_dated app cr sim n st k d price h c T C Hbp Hvec HT HC)|].
    simpl. repeat split; reflexivity.
Qed.

(** The entries only grow along the loop. *)
Lemma periods_grow (app : application) (cr : call_result)
    (sim : market_simulation) (n : nat) (names : list string)
    (st0 st : acc) (p : period) :
  for_each app cr sim n names st0 = Ok st ->
  In p (periods st0) -> In p (periods st).
Proof.
  revert st0. induction names as [|k names IH]; intros st0; simpl.
  - intros [= <-]. auto.
  - unfold_bind. destruct (bucket app cr sim n st0 k) as [s1|] eqn:Hb; [|discriminate].
    intros Hrest Hin. apply (IH s1 Hrest).
    destruct (bucket_periods app cr sim n st0 s1 k Hb) as [->|(q & -> & _)];
      [exact Hin | apply in_or_app; left; exact Hin].
Qed.

(** C5.  For every key that does not start with a dash, whose value and
    negated value are both in the mapping as vectors with one sample per
    path, and whose bucket (spot or dated) has its price: the list that
    [read_results] returns has the entry of that key, and that entry gives
    the mean and the standard error of two per-path vectors [hedge_units]
    and [cash_in] that are, at every path,
    [-((V(+) - V(-)) / (2 * perturbation_factor * price))] and
    [- hedge_units * price], with the price vector of that bucket. *)
Theorem hedge_units_and_cash_in (app : application) (ev : contract_valuation)
    (sim : market_simulation) (n : nat) (cr : call_result) (k : string)
    (vp vn price : ndarray) (when : option date)
    (se m : R) (ps : list period) :
  call_result_repo app !!
    make_call_result_id (valuation_id ev) (contract_specification_id ev) = Some cr ->
  startswith_dash k = false ->
  dict_get (perturbed_values cr) k = Ok (NdArray vp) ->
  dict_get (perturbed_values cr) (String "-"%char k) = Ok (NdArray vn) ->
  bucket_price app sim k = Some (when, price) ->
  length vp = n -> length vn = n -> length price = n ->
  read_results app ev sim n = Ok (se, m, ps) ->
  exists hedge_units cash_in p,
    hedge_units_of (NdArray vp) (NdArray vn) (perturbation_factor sim) price
      = Ok hedge_units /\
    cash_in_of hedge_units price = Ok cash_in /\
    length hedge_units = n /\ length cash_in = n /\
    (forall i, i < n ->
       nth i hedge_units 0%R =
         (- ((nth i vp 0 - nth i vn 0)
             / (2 * perturbation_factor sim * nth i price 0)))%R /\
       nth i cash_in 0%R = (- nth i hedge_units 0 * nth i price 0)%R) /\
    In p ps /\
    commodity p = k /\ date_of p = when /\
    price_mean p = mean price /\
    hedge_units_mean p = mean hedge_units /\
    hedge_units_stderr p = (std hedge_units / sqrt (INR n))%R /\
    cash_in_mean p = mean cash_in /\
    cash_in_stderr p = (std cash_in / sqrt (INR n))%R.
Proof.
  intros Hcr Hdash Hv Hn Hbp Lp Ln Lprice Hr.
  destruct (read_results_inv _ _ _ _ _ _ _ Hr)
    as (cr' & names & st & Hcr' & _ & Hnames & Hl & ->).
  rewrite Hcr in Hcr'. injection Hcr' as <-.
  assert (Hin : In k names).
  { apply (Permutation_in _ (Permutation_sym (sorted_perm _ _ Hnames))).
    apply filter_In. split.
    - apply dict_get_In in Hv. apply (in_map fst) in Hv. exact Hv.
    - rewrite Hdash. reflexivity. }
  destruct (in_split _ _ Hin) as (pre & post & ->).
  destruct (for_each_split app cr sim n pre post k _ _ Hl)
    as (sb & sa & _ & Hb & Hpost).
  destruct (vectors_of_arrays cr sim k vp vn price Hv Hn)
    as (h & c & Hvec & Hh & Hc & Lh & Lcash); try lia.
  assert (Hform : forall i, i < n ->
    nth i h 0%R = (- ((nth i vp 0 - nth i vn 0)
                      / (2 * perturbation_factor sim * nth i price 0)))%R /\
    nth i c 0%R = (- nth i h 0 * nth i price 0)%R).
  { intros i Hi. split.
    - apply (hedge_units_of_nth vp vn price h); try lia; assumption.
    - apply (cash_in_of_nth h price c i); try lia; assumption. }
  apply bucket_inv in Hb.
  assert (Hp : exists p,
    In p (periods sa) /\ commodity p = k /\ date_of p = when /\
    price_mean p = mean price /\
    hedge_units_mean p = mean h /\
    hedge_units_stderr p = (std h / sqrt (INR n))%R /\
    cash_in_mean p = mean c /\
    cash_in_stderr p = (std c / sqrt (INR n))%R).
  { destruct (kind_of k) eqn:Hk.
    - destruct Hb as (price' & h' & c' & Hbp' & Hvec' & ->).
      rewrite Hbp in Hbp'. injection Hbp' as -> <-.
      rewrite Hvec in Hvec'. injection Hvec' as <- <-.
      eexists. split; [simpl; apply in_or_app; right; left; reflexivity|].
      simpl. repeat split; reflexivity.
    - destruct Hb as (d & price' & h' & c' & T & C & Hbp' & Hvec' & _ & _ & ->).
      rewrite Hbp in Hbp'. injection Hbp' as -> <-.
      rewrite Hvec in Hvec'. injection Hvec' as <- <-.
      eexists. split; [simpl; apply in_or_app; right; left; reflexivity|].
      simpl. repeat split; reflexivity.
    - exfalso. unfold bucket_price in Hbp. rewrite Hk in Hbp. discriminate. }
  destruct Hp as (p & Hin_p & Hfields).
  exists h, c, p.
  split; [exact Hh|]. split; [exact Hc|]. split; [lia|]. split; [lia|].
  split; [exact Hform|].
  split; [apply (periods_grow app cr sim n post sa st p Hpost Hin_p) | exact Hfields].
Qed.

(** January in the example with two monthly keys. *)
Lemma hedge_units_and_cash_in_witness :
  match read_results Examples.app_done Examples.evaluation Examples.sim 2 with
  | Ok (_, _, ps) =>
    exists p, In p ps /\ commodity p = "GAS-2011-1"%string /\
      hedge_units_mean p =
        mean [(- ((11 - 9) / (2 * (1 / 100) * 10)))%R;
              (- ((14 - 11) / (2 * (1 / 100) * 20)))%R]
  | Raise _ => False
  end.
Proof.
  destruct (read_results Examples.app_done Examples.evaluation Examples.sim 2)
    as [[[se m] ps]|e] eqn:Hr; [|vm_compute in Hr; discriminate].
  destruct (hedge_units_and_cash_in Examples.app_done Examples.evaluation
              Examples.sim 2 Examples.two_months "GAS-2011-1"
              [11; 14]%R [9; 11]%R [10; 20]%R (Some (Date 2011 1 1)) se m ps)
    as (h & c & p & Hh & _ & Lh & _ & Hform & Hin & Hk & _ & _ & Hmean & _);
    try (vm_compute; reflexivity); [exact Hr|].
  exists p. split; [exact Hin|]. split; [exact Hk|]. rewrite Hmean.
  destruct h as [|h0 [|h1 [|h2 h]]]; simpl in Lh; try lia.
  destruct (Hform 0 ltac:(lia)) as [H0 _]. destruct (Hform 1 ltac:(lia)) as [H1 _].
  simpl in H0, H1. rewrite H0, H1. reflexivity.
Defined.

(** C6.  In what [read_results] returns, the standard error of the fair
    value is the standard deviation of its samples over the square root of
    the path count (0 for a plain number), and every entry gives, for the
    hedge, the cash, the cumulative position, the cumulative cash and the
    total units, the standard deviation of the per-path vector in question
    over the square root of the path count; the price entry alone is the
    standard deviation of the price vector, not divided.  The vectors are
    those of the bucket of the entry; for a dated entry the cumulative ones
    are the running totals right after its bucket was added, for a spot
    entry they are the vectors of the bucket itself. *)
Theorem standard_errors (app : application) (ev : contract_valuation)
    (sim : market_simulation) (n : nat) (se m : R) (ps : list period) :
  read_results app ev sim n = Ok (se, m, ps) ->
  exists cr names,
    call_result_repo app !!
      make_call_result_id (valuation_id ev) (contract_specification_id ev) = Some cr /\
    perturbed_names cr = Ok names /\
    match result_value cr with
    | NdArray a => se = (std a / sqrt (INR n))%R
    | PyFloat _ => se = 0%R
    end /\
    forall p, In p ps ->
      exists price h c,
        bucket_price app sim (commodity p) = Some (date_of p, price) /\
        vectors_of cr sim (commodity p) price = Ok (h, c) /\
        hedge_units_stderr p = (std h / sqrt (INR n))%R /\
        cash_in_stderr p = (std c / sqrt (INR n))%R /\
        price_std p = std price /\
        match date_of p with
        | None =>
          cum_pos_stderr p = (std h / sqrt (INR n))%R /\
          cum_cash_stderr p = (std c / sqrt (INR n))%R /\
          total_unit_stderr p = None
        | Some _ =>
          exists pre post sb T C,
            names = pre ++ commodity p :: post /\
            for_each app cr sim n pre (initial n) = Ok sb /\
            iadd (total_units sb) h = Ok T /\
            iadd (total_cash_in sb) c = Ok C /\
            cum_pos_stderr p = (std T / sqrt (INR n))%R /\
            cum_cash_stderr p = (std C / sqrt (INR n))%R /\
            total_unit_stderr p = Some (std T / sqrt (INR n))%R
        end.
Proof.
  intros Hr.
  destruct (read_results_inv _ _ _ _ _ _ _ Hr)
    as (cr & names & st & Hcr & Hf & Hn & Hl & ->).
  exists cr, names. split; [exact Hcr|]. split; [exact Hn|]. split.
  - unfold fair_value_stats in Hf.
    destruct (result_value cr); injection Hf as _ <-; reflexivity.
  - intros p Hin.
    destruct (period_origin app cr sim n names (initial n) st p Hl Hin)
      as [[]|(pre & post & sb & sa & Hnames & Hpre & Hb & Hp)].
    apply bucket_inv in Hb. destruct (kind_of (commodity p)).
    + destruct Hb as (price & h & c & Hbp & Hvec & ->). simpl in Hp.
      apply app_inj_tail in Hp. destruct Hp as [_ Hp].
      rewrite <- Hp in *. simpl in *. exists price, h, c.
      repeat split; assumption || reflexivity.
    + destruct Hb as (d & price & h & c & T & C & Hbp & Hvec & HT & HC & ->).
      simpl in Hp. apply app_inj_tail in Hp. destruct Hp as [_ Hp].
      rewrite <- Hp in *. simpl in *. exists price, h, c.
      split; [exact Hbp|]. split; [exact Hvec|].
      split; [reflexivity|]. split; [reflexivity|]. split; [reflexivity|].
      exists pre, post, sb, T, C. repeat split; assumption || reflexivity.
    + subst sa. apply (f_equal (@length period)) in Hp.
      rewrite length_app in Hp. simpl in Hp. lia.
Qed.

(** The read of the example with two monthly keys succeeds; its fair value
    has the samples 10 and 12. *)
Lemma standard_errors_witness :
  match read_results Examples.app_done Examples.evaluation Examples.sim 2 with
  | Ok (se, _, _) => se = (std [10; 12] / sqrt (INR 2))%R
  | Raise _ => False
  end.
Proof.
  destruct (read_results Examples.app_done Examples.evaluation Examples.sim 2)
    as [[[se m] ps]|e] eqn:Hr; [|vm_compute in Hr; discriminate].
  destruct (standard_errors _ _ _ _ _ _ _ Hr) as (cr & names & Hcr & _ & Hse & _).
  vm_compute in Hcr. injection Hcr as <-. exact Hse.
Defined.

(** *** Running totals *)

Lemma sum_snoc (a : ndarray) (x : R) : sum (a ++ [x]) = (sum a + x)%R.
Proof.
  unfold sum. induction a as [|y a IH]; simpl; [lra|]. rewrite IH. lra.
Qed.

Lemma column_snoc (i : nat) (vs : list ndarray) (v : ndarray) :
  column i (vs ++ [v]) = (column i vs + nth i v 0)%R.
Proof. unfold column. rewrite map_app. simpl. apply sum_snoc. Qed.

Lemma last_dated_snoc (ps : list period) (p : period) :
  last_dated (ps ++ [p]) =
  match date_of p with Some _ => Some p | None => last_dated ps end.
Proof. unfold last_dated. rewrite fold_left_app. reflexivity. Qed.

Lemma bucket_price_shape (app : application) (cr : call_result)
    (sim : market_simulation) (n : nat) (k : string) (when : option date)
    (price : ndarray) :
  well_shaped app cr n ->
  bucket_price app sim k = Some (when, price) ->
  length price = n.
Proof.
  intros [_ Hp]. unfold bucket_price. destruct (kind_of k); try discriminate.
  - destruct (simulated_price_repo app !! _) as [x|] eqn:E; [|discriminate].
    simpl. intros [= _ <-]. apply (Hp _ _ E).
  - destruct (price_date_of _); [|discriminate].
    destruct (simulated_price_repo app !! _) as [x|] eqn:E; [|discriminate].
    simpl. intros [= _ <-]. apply (Hp _ _ E).
Qed.

Lemma vectors_of_shape (app : application) (cr : call_result)
    (sim : market_simulation) (n : nat) (k : string) (price h c : ndarray) :
  well_shaped app cr n ->
  length price = n ->
  vectors_of cr sim k price = Ok (h, c) ->
  length h = n /\ length c = n.
Proof.
  intros [Hv _] Lp Hvec.
  assert (Harr : forall key v, dict_get (perturbed_values cr) key = Ok v ->
                   exists a, v = NdArray a /\ length a = n).
  { intros key v Hg. apply dict_get_In in Hg.
    rewrite List.Forall_forall in Hv. apply (Hv (key, v) Hg). }
  revert Hvec. unfold vectors_of. unfold_bind.
  destruct (dict_get _ k) as [pv|] eqn:Ep; [|discriminate].
  destruct (dict_get _ (String _ k)) as [pvn|] eqn:En; [|discriminate].
  destruct (Harr _ _ Ep) as (vp & -> & Lvp).
  destruct (Harr _ _ En) as (vn & -> & Lvn).
  destruct (vectors_of_arrays cr sim k vp vn price Ep En)
    as (h' & c' & _ & Hh & Hc & Lh & Lc); try lia.
  rewrite Hh, Hc. intros [= <- <-]. lia.
Qed.

Section Totals.

Variable app : application.
Variable cr : call_result.
Variable sim : market_simulation.
Variable n : nat.
Hypothesis shaped : well_shaped app cr n.

(** What the loop has done after any list of keys, started from zero
    totals and no entry. *)
Lemma loop_totals (names : list string) (st : acc) :
  for_each app cr sim n names (initial n) = Ok st ->
  exists hcs,
    Forall2 (dated_vectors app cr sim) (List.filter is_dated names) hcs /\
    length (total_units st) = n /\ length (total_cash_in st) = n /\
    (forall i, i < n ->
       nth i (total_units st) 0%R = column i (map fst hcs) /\
       nth i (total_cash_in st) 0%R = column i (map snd hcs)) /\
    (forall p, last_dated (periods st) = Some p ->
       last (List.filter is_dated names) = Some (commodity p) /\
       cum_pos_mean p = mean (total_units st) /\
       cum_pos_stderr p = (std (total_units st) / sqrt (INR n))%R /\
       cum_cash_mean p = mean (total_cash_in st) /\
       cum_cash_stderr p = (std (total_cash_in st) / sqrt (INR n))%R) /\
    (List.filter is_dated names <> [] -> is_Some (last_dated (periods st))).
Proof.
  revert st. induction names as [|k names IH] using rev_ind; intros st.
  - simpl. intros [= <-]. exists []. simpl.
    split; [constructor|]. rewrite zeros_length.
    split; [reflexivity|]. split; [reflexivity|].
    split; [intros i _; rewrite nth_zeros; split; reflexivity|].
    split; [discriminate | congruence].
  - intros H.
    destruct (for_each_split app cr sim n names [] k _ _ H) as (sb & sa & Hpre & Hb & Hpost).
    simpl in Hpost. injection Hpost as ->.
    destruct (IH sb Hpre) as (hcs & Hvecs & Lu & Lc & Hsum & Hlast & Hsome).
    rewrite List.filter_app. simpl. unfold is_dated at 2 4 6.
    apply bucket_inv in Hb.
    destruct (kind_of k).
    + destruct Hb as (price & h & c & _ & _ & ->). simpl.
      rewrite app_nil_r, last_dated_snoc. simpl.
      exists hcs. repeat split; try assumption; apply Hsum || apply Hlast; assumption.
    + destruct Hb as (d & price & h & c & T & C & Hbp & Hvec & HT & HC & ->). simpl.
      pose proof (bucket_price_shape app cr sim n k _ price shaped Hbp) as Lp.
      destruct (vectors_of_shape app cr sim n k price h c shaped Lp Hvec) as [Lh Lcash].
      rewrite iadd_same_length in HT by lia. injection HT as <-.
      rewrite iadd_same_length in HC by lia. injection HC as <-.
      exists (hcs ++ [(h, c)]).
      split; [apply Forall2_app; [exact Hvecs | repeat constructor; exists d, price; auto]|].
      split; [rewrite length_zip_with_same; lia|].
      split; [rewrite length_zip_with_same; lia|].
      split.
      * intros i Hi. rewrite !map_app. simpl. rewrite !column_snoc.
        rewrite !(nth_zip_with_lt _ _ _ _ _ 0%R 0%R) by lia.
        destruct (Hsum i Hi) as [-> ->]. split; reflexivity.
      * rewrite last_dated_snoc. simpl. split.
        -- intros p [= <-]. simpl. rewrite last_snoc.
           repeat split; reflexivity.
        -- intros _. eauto.
    + subst st. rewrite app_nil_r.
      exists hcs. repeat split; try assumption; apply Hsum || apply Hlast; assumption.
Qed.

End Totals.

(** *** The order of the loop *)

Lemma list_ltb_asym (a b : list Z) : list_ltb a b = true -> list_ltb b a = false.
Proof.
  revert b. induction a as [|x a IH]; intros [|y b]; simpl; try congruence.
  destruct (Z.ltb_spec x y), (Z.ltb_spec y x); try congruence; try lia.
  apply IH.
Qed.

Lemma insert_by_ascending (x : list Z * string) (l : list (list Z * string)) :
  ascending l -> ascending (insert_by x l).
Proof.
  unfold ascending. induction l as [|y l IH]; intros Hs; simpl.
  - repeat constructor.
  - destruct (list_ltb (fst y) (fst x)) eqn:E.
    + inversion Hs as [|? ? Hs' Hhd]; subst. constructor; [auto|].
      destruct l as [|z l]; simpl.
      * constructor. apply list_ltb_asym, E.
      * destruct (list_ltb (fst z) (fst x)).
        -- inversion Hhd; subst. constructor. assumption.
        -- constructor. apply list_ltb_asym, E.
    + constructor; [exact Hs|]. constructor. exact E.
Qed.

Lemma sort_by_key_ascending (l : list (list Z * string)) :
  ascending (sort_by_key l).
Proof.
  induction l as [|x l IH]; simpl; [constructor|].
  apply insert_by_ascending, IH.
Qed.

(** C7.  With one sample per path in every vector: the dated keys, in the
    order of the loop, have per-path vectors [hedge_units] and [cash_in]
    (the list [hcs]); there are two vectors [T] and [C] whose entry at each
    path is the sum over all those buckets of the entries of [hedge_units],
    respectively [cash_in], at that path; and the last dated entry of the
    list returned, which is the entry of the last dated key, reports as
    cumulative position and cumulative cash the mean of [T] and of [C] and
    their standard deviation over the square root of the path count. *)
Theorem cumulative_totals (app : application) (ev : contract_valuation)
    (sim : market_simulation) (n : nat) (cr : call_result)
    (names : list string) (se m : R) (ps : list period) :
  call_result_repo app !!
    make_call_result_id (valuation_id ev) (contract_specification_id ev) = Some cr ->
  perturbed_names cr = Ok names ->
  well_shaped app cr n ->
  read_results app ev sim n = Ok (se, m, ps) ->
  exists hcs T C,
    Forall2 (dated_vectors app cr sim) (List.filter is_dated names) hcs /\
    length T = n /\ length C = n /\
    (forall i, i < n ->
       nth i T 0%R = column i (map fst hcs) /\
       nth i C 0%R = column i (map snd hcs)) /\
    (forall p, last_dated ps = Some p ->
       last (List.filter is_dated names) = Some (commodity p) /\
       cum_pos_mean p = mean T /\
       cum_pos_stderr p = (std T / sqrt (INR n))%R /\
       cum_cash_mean p = mean C /\
       cum_cash_stderr p = (std C / sqrt (INR n))%R) /\
    (List.filter is_dated names <> [] -> is_Some (last_dated ps)).
Proof.
  intros Hcr Hnames Hshape Hr.
  destruct (read_results_inv _ _ _ _ _ _ _ Hr)
    as (cr' & names' & st & Hcr' & _ & Hn' & Hl & ->).
  rewrite Hcr in Hcr'. injection Hcr' as <-.
  rewrite Hnames in Hn'. injection Hn' as <-.
  destruct (loop_totals app cr sim n Hshape names st Hl)
    as (hcs & Hvecs & Lu & Lc & Hsum & Hlast & Hsome).
  exists hcs, (total_units st), (total_cash_in st).
  repeat split; try assumption; apply Hsum || apply Hlast; assumption.
Qed.

(** The example with two monthly keys: its last dated entry is there. *)
Lemma cumulative_totals_witness :
  match read_results Examples.app_done Examples.evaluation Examples.sim 2 with
  | Ok (_, _, ps) => is_Some (last_dated ps)
  | Raise _ => False
  end.
Proof.
  destruct (read_results Examples.app_done Examples.evaluation Examples.sim 2)
    as [[[se m] ps]|e] eqn:Hr; [|vm_compute in Hr; discriminate].
  assert (Hshape : well_shaped Examples.app_done Examples.two_months 2).
  { split.
    - repeat constructor; eexists; split; reflexivity.
    - unfold Examples.app_done, Examples.prices. simpl.
      apply map_Forall_insert_2; [reflexivity|].
      apply map_Forall_insert_2; [reflexivity|].
      apply map_Forall_empty. }
  destruct (cumulative_totals Examples.app_done Examples.evaluation Examples.sim 2
              Examples.two_months ["GAS-2011-1"; "GAS-2011-2"]%string se m ps)
    as (hcs & T & C & _ & _ & _ & _ & _ & Hsome);
    [vm_compute; reflexivity | vm_compute; reflexivity | exact Hshape | exact Hr |].
  apply Hsome. vm_compute. discriminate.
Defined.

End AggregatorFacts.

(** ** More on the progress tracker *)

Module TrackerMore.

Import Tracker TrackerFacts.
Local Open Scope Z_scope.

Lemma py_div_pos (a b : Q) : (0 < b)%Q -> py_div a b = Ok (a / b)%Q.
Proof.
  intros Hb. unfold py_div. destruct (Qeq_bool b 0) eqn:E; [|reflexivity].
  apply Qeq_bool_iff in E. rewrite E in Hb. discriminate.
Qed.

Lemma py_div_zero (a b : Q) : (b == 0)%Q -> py_div a b = Raise ZeroDivisionError.
Proof.
  intros Hb. unfold py_div. apply Qeq_bool_iff in Hb. rewrite Hb. reflexivity.
Qed.

Lemma inject_Z_pos (z : Z) : 0 < z -> (0 < inject_Z z)%Q.
Proof. intros H. unfold Qlt. simpl. lia. Qed.

Lemma Qdiv_pos (a b : Q) : (0 < a)%Q -> (0 < b)%Q -> (0 < a / b)%Q.
Proof.
  intros Ha Hb. unfold Qdiv. apply Qmult_lt_0_compat; [exact Ha|].
  apply Qinv_lt_0_compat, Hb.
Qed.

Lemma total_seconds_pos (w : list Z) :
  List.hd 0 w < List.last w 0 -> (0 < total_seconds w)%Q.
Proof.
  intros H. unfold total_seconds.
  apply Qdiv_pos; [apply inject_Z_pos; lia | reflexivity].
Qed.

Lemma total_seconds_zero (w : list Z) :
  List.last w 0 = List.hd 0 w -> (total_seconds w == 0)%Q.
Proof.
  intros H. unfold total_seconds. rewrite H, Z.sub_diag. reflexivity.
Qed.

(** The rate of a deque that is short, or whose newest sample is later
    than its oldest. *)
Lemma rate_of_pos (w : list Z) :
  len w <= 1 \/ List.hd 0 w < List.last w 0 ->
  exists rate, rate_of w = Ok rate /\ (0 < rate)%Q.
Proof.
  intros H. unfold rate_of. destruct (Z.ltb_spec 1 (len w)) as [Hl|Hl].
  - destruct H as [H|H]; [lia|].
    pose proof (total_seconds_pos w H) as Hs.
    rewrite (py_div_pos _ _ Hs). eexists. split; [reflexivity|].
    apply Qdiv_pos; [apply inject_Z_pos; lia | exact Hs].
  - eexists. split; reflexivity.
Qed.

(** X1.  The exact length of the deque after any number of notifications:
    the number of notifications, capped at half the total cost rounded
    down, and 0 for a negative total cost. *)
Theorem window_length_exact (cost : Z) (stamps : list Z) :
  len (times (run_notifications stamps (init cost))) =
  Z.max 0 (Z.min (len stamps) (cost / 2)).
Proof.
  pose proof (Z.div_mod cost 2 ltac:(lia)) as Hdm.
  pose proof (Z.mod_pos_bound cost 2 ltac:(lia)) as Hmb.
  induction stamps as [|now stamps IH] using rev_ind.
  - simpl. unfold len. simpl. lia.
  - rewrite run_notifications_snoc. unfold notify. rewrite handler_times.
    set (self := run_notifications stamps (init cost)) in *.
    assert (Hc : total_cost self = cost) by (unfold self; apply run_total_cost).
    assert (Hs : len (stamps ++ [now]) = len stamps + 1)
      by (unfold len; rewrite length_app; simpl; lia).
    assert (Hn : 0 <= len stamps) by (unfold len; lia).
    rewrite Hs.
    destruct (push_cases now self) as [[Hle Hp]|[Hlt [oldest Hp]]].
    + rewrite Hp. rewrite Hc in Hle.
      assert (Hl : len (times self ++ [now]) = len (times self) + 1)
        by (unfold len; rewrite length_app; simpl; lia).
      rewrite Hl. lia.
    + rewrite Hc in Hlt.
      assert (Hl : len (times self) = len (push now self)).
      { apply (f_equal (@length Z)) in Hp. rewrite length_app in Hp.
        simpl in Hp. unfold len. lia. }
      rewrite <- Hl. lia.
Qed.

(** X2.  When the newest and the oldest sample kept carry the same
    timestamp (two notifications within one tick of the clock), the
    notification raises [ZeroDivisionError]; the deque has taken the new
    sample, the counter has not moved. *)
Theorem equal_timestamps_raise (now : Z) (self : state) :
  1 < len (push now self) ->
  List.last (push now self) 0 = List.hd 0 (push now self) ->
  count_result_values_computed now ResultValueComputed self =
    (mkState (push now self) (total_cost self) (result_values_computed_count self),
     Raise ZeroDivisionError).
Proof.
  intros Hl He. unfold count_result_values_computed, rate_of.
  apply Z.ltb_lt in Hl. rewrite Hl.
  rewrite (py_div_zero _ _ (total_seconds_zero _ He)). reflexivity.
Qed.

(** Total cost 4, two notifications at the same microsecond. *)
Lemma equal_timestamps_raise_witness :
  count_result_values_computed 5 ResultValueComputed (mkState [5] 4 1) =
    (mkState [5; 5] 4 1, Raise ZeroDivisionError).
Proof.
  apply (equal_timestamps_raise 5 (mkState [5] 4 1)); vm_compute; reflexivity.
Defined.

(** A notification whose deque is short or spans a positive time. *)
Lemma handler_counts (now : Z) (self : state) :
  len (push now self) <= 1 \/
    List.hd 0 (push now self) < List.last (push now self) 0 ->
  exists rate,
    rate_of (push now self) = Ok rate /\ (0 < rate)%Q /\
    fst (count_result_values_computed now ResultValueComputed self) =
      mkState (push now self) (total_cost self)
        (result_values_computed_count self + 1) /\
    (total_cost self <> 0 ->
     snd (count_result_values_computed now ResultValueComputed self) =
       Ok (mkReport
             (100 * inject_Z (result_values_computed_count self + 1)
              / inject_Z (total_cost self))%Q
             (result_values_computed_count self + 1)
             (total_cost self)
             rate
             (inject_Z (total_cost self - result_values_computed_count self)
              / rate)%Q)).
Proof.
  intros H. destruct (rate_of_pos _ H) as (rate & Hr & Hpos).
  exists rate. split; [exact Hr|]. split; [exact Hpos|].
  unfold count_result_values_computed. rewrite Hr.
  rewrite (py_div_pos _ _ Hpos). simpl.
  unfold py_div at 1 2.
  destruct (Qeq_bool (inject_Z (total_cost self)) 0) eqn:E; simpl.
  - split; [reflexivity|]. intros Hc. exfalso. apply Hc.
    apply Qeq_bool_iff in E. unfold Qeq in E. simpl in E. lia.
  - split; reflexivity.
Qed.

Lemma sorted_suffix (evicted w : list Z) :
  StronglySorted Z.lt (evicted ++ w) -> StronglySorted Z.lt w.
Proof.
  induction evicted as [|x evicted IH]; simpl; [auto|].
  intros H. inversion H; subst. auto.
Qed.

Lemma sorted_ends (w : list Z) :
  StronglySorted Z.lt w -> 1 < len w -> List.hd 0 w < List.last w 0.
Proof.
  intros Hs Hl. destruct w as [|x [|y rest]]; unfold len in Hl; simpl in Hl; try lia.
  inversion Hs as [|? ? _ Hall]; subst.
  change (List.hd 0 (x :: y :: rest)) with x.
  rewrite List.Forall_forall in Hall. apply Hall.
  change (List.last (x :: y :: rest) 0) with (List.last (y :: rest) 0).
  clear. revert y. induction rest as [|z rest IH]; intros y; [left; reflexivity|].
  right. apply IH.
Qed.

(** With a clock that moves between notifications, the deque after a push
    is short or spans a positive time. *)
Lemma increasing_window (cost : Z) (stamps : list Z) (now : Z) :
  StronglySorted Z.lt (stamps ++ [now]) ->
  let w := push now (run_notifications stamps (init cost)) in
  len w <= 1 \/ List.hd 0 w < List.last w 0.
Proof.
  intros Hs w.
  destruct (Z.le_gt_cases (len w) 1) as [Hl|Hl]; [left; exact Hl | right].
  apply sorted_ends; [|lia].
  destruct (window_invariant cost (stamps ++ [now])) as (_ & _ & _ & evicted & Hf).
  rewrite run_notifications_snoc in Hf. unfold notify in Hf.
  rewrite handler_times in Hf. fold w in Hf.
  rewrite Hf in Hs. apply (sorted_suffix evicted w Hs).
Qed.

Lemma increasing_count (cost : Z) (stamps : list Z) :
  StronglySorted Z.lt stamps ->
  result_values_computed_count (run_notifications stamps (init cost)) = len stamps.
Proof.
  induction stamps as [|now stamps IH] using rev_ind; intros Hs; [reflexivity|].
  rewrite run_notifications_snoc. unfold notify.
  destruct (handler_counts now (run_notifications stamps (init cost))
              (increasing_window cost stamps now Hs)) as (rate & _ & _ & -> & _).
  simpl. rewrite IH.
  - unfold len. rewrite length_app. simpl. lia.
  - clear IH. induction stamps as [|x stamps IH']; simpl in *; [constructor|].
    inversion Hs as [|? ? Hs' Hall]; subst. constructor; [auto|].
    rewrite List.Forall_forall in *. intros y Hy. apply Hall.
    apply in_or_app. auto.
Qed.

(** X3.  With timestamps that strictly increase and a total cost other than
    0, every notification succeeds: it reports the number of notifications
    so far, the percentage [100 * count / total_cost], a positive rate, and
    the eta [(total_cost - count before this notification) / rate]. *)
Theorem notification_reports (cost : Z) (stamps : list Z) (now : Z) :
  StronglySorted Z.lt (stamps ++ [now]) ->
  cost <> 0 ->
  exists r,
    snd (count_result_values_computed now ResultValueComputed
           (run_notifications stamps (init cost))) = Ok r /\
    completed r = len stamps + 1 /\
    total r = cost /\
    percent r = (100 * inject_Z (len stamps + 1) / inject_Z cost)%Q /\
    (0 < rate r)%Q /\
    eta r = (inject_Z (cost - len stamps) / rate r)%Q /\
    result_values_computed_count
      (run_notifications (stamps ++ [now]) (init cost)) = len stamps + 1.
Proof.
  intros Hs Hc.
  assert (Hs' : StronglySorted Z.lt stamps).
  { clear Hc. induction stamps as [|x stamps IH]; simpl in *; [constructor|].
    inversion Hs as [|? ? Hs' Hall]; subst. constructor; [auto|].
    rewrite List.Forall_forall in *. intros y Hy. apply Hall.
    apply in_or_app. auto. }
  destruct (handler_counts now (run_notifications stamps (init cost))
              (increasing_window cost stamps now Hs)) as (rate & _ & Hpos & _ & Hr).
  rewrite run_total_cost in Hr. simpl in Hr. specialize (Hr Hc).
  rewrite (increasing_count cost stamps Hs') in Hr.
  eexists. split; [exact Hr|]. simpl.
  repeat split; try reflexivity; try assumption.
  rewrite (increasing_count cost (stamps ++ [now]) Hs).
  unfold len. rewrite length_app. simpl. lia.
Qed.

(** Total cost 100, one notification per second: the third one. *)
Lemma notification_reports_witness :
  exists r,
    snd (count_result_values_computed 3000000 ResultValueComputed
           (run_notifications [1000000; 2000000] (init 100))) = Ok r /\
    completed r = 3 /\ percent r = (100 * inject_Z 3 / inject_Z 100)%Q.
Proof.
  destruct (notification_reports 100 [1000000; 2000000] 3000000)
    as (r & Hr & Hc & _ & Hp & _); [repeat constructor; lia | lia |].
  exists r. split; [exact Hr|]. split; [exact Hc | exact Hp].
Defined.

(** X4.  Called with any event that is not a [ResultValueComputed], the
    handler raises and does not count it, but the deque has already taken
    a timestamp for it. *)
Theorem other_event_is_not_counted (now : Z) (ev : event) (self : state) :
  is_result_value_computed ev = false ->
  fst (count_result_values_computed now ev self) =
    mkState (push now self) (total_cost self) (result_values_computed_count self) /\
  exists e, snd (count_result_values_computed now ev self) = Raise e /\
            (e = AssertionError \/ e = ZeroDivisionError).
Proof.
  intros He. unfold count_result_values_computed, rate_of, py_div. rewrite He. simpl.
  repeat (match goal with |- context [if ?x then _ else _] => destruct x end;
          simpl; try (split; [reflexivity | eauto])).
Qed.

Lemma other_event_is_not_counted_witness :
  fst (count_result_values_computed 7 OtherEvent (init 10)) = mkState [7] 10 0.
Proof.
  apply (other_event_is_not_counted 7 OtherEvent (init 10)). reflexivity.
Defined.

End TrackerMore.

(** ** The handlers on the bus *)

Module BusFacts.

Import Aggregator Bus.
Local Open Scope nat_scope.

Lemma publish_id (s : self) (e : event) :
  call_result_id (publish s e) = call_result_id s.
Proof. unfold publish. destruct (is_evaluation_complete s e); reflexivity. Qed.

Lemma publish_all_id (es : list event) (s : self) :
  call_result_id (fold_left publish es s) = call_result_id s.
Proof.
  revert s. induction es as [|e es IH]; intros s; simpl; [reflexivity|].
  rewrite IH. apply publish_id.
Qed.

(** X5.  Whatever events are published, in whatever order, the readiness
    flag ends up set exactly when it was set before or one of the events is
    a [CallResult.Created] carrying the id the object holds; nothing unsets
    it, no other event sets it, and no event sets it while the object holds
    no id yet. *)
Theorem completion_flag (s : self) (es : list event) :
  is_evaluation_ready (fold_left publish es s) = true <->
  is_evaluation_ready s = true \/
  exists id, call_result_id s = Some id /\ In (CallResultCreated id) es.
Proof.
  revert s. induction es as [|e es IH]; intros s; simpl.
  - split; [auto | intros [H|(id & _ & [])]; exact H].
  - rewrite IH, publish_id. unfold publish, is_evaluation_complete.
    destruct e as [|entity_id|]; simpl.
    + split; (intros [H|(id & Hid & Hin)]; [left; exact H | right; exists id]).
      * split; [exact Hid | right; exact Hin].
      * split; [exact Hid|]. destruct Hin as [Hin|Hin]; [discriminate | exact Hin].
    + destruct (call_result_id s) as [id0|] eqn:Hs.
      * destruct (bool_decide_reflect (entity_id = id0)) as [->|Hne]; simpl.
        -- split; [intros _; right; exists id0; auto | auto].
        -- split; (intros [H|(id & Hid & Hin)]; [left; exact H | right; exists id]).
           ++ split; [exact Hid | right; exact Hin].
           ++ split; [exact Hid|]. destruct Hin as [Hin|Hin]; [|exact Hin].
              injection Hin as ->. injection Hid as ->. contradiction.
      * split; (intros [H|(id & Hid & Hin)]; [left; exact H | discriminate]).
    + split; (intros [H|(id & Hid & Hin)]; [left; exact H | right; exists id]).
      * split; [exact Hid | right; exact Hin].
      * split; [exact Hid|]. destruct Hin as [Hin|Hin]; [discriminate | exact Hin].
Qed.

(** X6.  Through the bus the counter only ever sees [ResultValueComputed]
    events: any other event leaves the tracker untouched, and the assertion
    of the handler never fails. *)
Theorem bus_filters_tracker_events (now : Z) (e : event) (t : Tracker.state) :
  (is_result_value_computed e = false -> publish_to_tracker now e t = (t, None)) /\
  snd (publish_to_tracker now e t) <> Some (Raise AssertionError).
Proof.
  unfold publish_to_tracker. split.
  - intros ->. reflexivity.
  - destruct e as [|id|]; simpl; try discriminate.
    unfold Tracker.count_result_values_computed, Tracker.rate_of, Tracker.py_div.
    simpl.
    repeat (match goal with |- context [if ?x then _ else _] => destruct x end;
            simpl; try discriminate).
Qed.

Lemma bus_filters_tracker_events_witness :
  publish_to_tracker 3 (CallResultCreated Examples.id) (Tracker.init 10)
    = (Tracker.init 10, None).
Proof.
  apply (bus_filters_tracker_events 3 (CallResultCreated Examples.id) (Tracker.init 10)).
  reflexivity.
Defined.

End BusFacts.

(** ** More on [run] *)

Module RunnerMore.

Import Aggregator Runner RunnerFacts.
Local Open Scope nat_scope.

Ltac unfold_M :=
  unfold start, calc_results, finish, lift, subscribe, unsubscribe,
    mbind, M_bind, mret, M_ret in *.

(** X7.  Where [run] stops decides what it leaves on the bus: nothing when
    the compilation fails; the completion filter alone when the
    calibration, the simulation or the cost estimate fails; both
    subscriptions when starting the evaluation fails. *)
Theorem early_failure_subscriptions (self : nat) (w : world) (fuel : nat)
    (b : bus) (e : exn) :
  (compile w = Raise e -> run self w fuel b = Some (b, Raise e)) /\
  (is_ok (compile w) = true ->
   register_market_calibration w = Raise e \/
   (is_ok (register_market_calibration w) = true /\ simulate w = Raise e) \/
   (is_ok (register_market_calibration w) = true /\ is_ok (simulate w) = true /\
    calc_call_costs w = Raise e) ->
   run self w fuel b = Some (b ++ [completion_filter self], Raise e)) /\
  (is_ok (compile w) = true -> is_ok (register_market_calibration w) = true ->
   is_ok (simulate w) = true -> is_ok (calc_call_costs w) = true ->
   evaluate w = Raise e ->
   run self w fuel b =
     Some (b ++ [completion_filter self; unit_counter self], Raise e)).
Proof.
  unfold run. unfold_M. repeat split.
  - intros ->. reflexivity.
  - destruct (compile w); [|discriminate]. intros _.
    intros [->|[[H ->]|(H1 & H2 & ->)]]; [reflexivity| |].
    + destruct (register_market_calibration w); [reflexivity | discriminate].
    + destruct (register_market_calibration w); [|discriminate].
      destruct (simulate w); [reflexivity | discriminate].
  - destruct (compile w); [|discriminate].
    destruct (register_market_calibration w); [|discriminate].
    destruct (simulate w); [|discriminate].
    destruct (calc_call_costs w); [|discriminate].
    intros _ _ _ _ ->. rewrite <- app_assoc. reflexivity.
Qed.

(** The simulation fails (say on the observation date). *)
Lemma early_failure_subscriptions_witness :
  run 3 (mkWorld 2 "monthly" false None (Ok "spec"%string) (Ok tt)
           (Raise ValueError) (Ok [1%Z]) (Ok Examples.evaluation)
           (fun _ => Examples.app_empty) (fun _ => false)) 5 []
    = Some ([completion_filter 3], Raise ValueError).
Proof.
  refine (proj1 (proj2 (early_failure_subscriptions 3 _ 5 [] ValueError)) _ _).
  - reflexivity.
  - right. left. split; reflexivity.
Defined.

Lemma start_ok (self : nat) (w : world) (b b1 : bus)
    (x : contract_valuation * market_simulation) :
  start self w b = (b1, Ok x) ->
  b1 = b ++ [completion_filter self; unit_counter self].
Proof.
  unfold_M.
  destruct (compile w); [|discriminate].
  destruct (register_market_calibration w); [|discriminate].
  destruct (simulate w); [|discriminate].
  destruct (calc_call_costs w); [|discriminate].
  destruct (evaluate w); [|discriminate].
  intros [= <- _]. rewrite <- app_assoc. reflexivity.
Qed.

Lemma remove_first_fresh (s : subscription) (b t : bus) :
  ~ In s b -> remove_first s (b ++ s :: t) = b ++ t.
Proof.
  induction b as [|x b IH]; simpl; intros Hn.
  - destruct (decide (s = s)); [reflexivity | contradiction].
  - destruct (decide (x = s)) as [->|_]; [exfalso; auto|].
    f_equal. apply IH. auto.
Qed.

(** X8.  A run that returns normally leaves the bus exactly as it found it,
    when the object was not subscribed before. *)
Theorem successful_run_restores_bus (self : nat) (w : world) (fuel : nat)
    (b b' : bus) :
  ~ In (completion_filter self) b ->
  ~ In (unit_counter self) b ->
  run self w fuel b = Some (b', Ok tt) ->
  b' = b.
Proof.
  intros Hc Hu Hr.
  destruct (start self w b) as [b1 [x|e]] eqn:Hs;
    [|unfold run in Hr; rewrite Hs in Hr; discriminate].
  pose proof (start_ok self w b b1 x Hs) as ->.
  pose proof (run_bus self w fuel b b' x (Ok tt) Hs Hr) as H. simpl in H.
  rewrite H.
  change (b ++ [completion_filter self; unit_counter self])
    with (b ++ [completion_filter self] ++ [unit_counter self]).
  rewrite app_assoc.
  rewrite (remove_first_fresh (unit_counter self) (b ++ [completion_filter self]) []).
  - rewrite app_nil_r.
    rewrite (remove_first_fresh (completion_filter self) b []); [apply app_nil_r | exact Hc].
  - intros Hin. apply in_app_or in Hin. destruct Hin as [Hin|[Hin|[]]]; [auto|].
    discriminate.
Qed.

Lemma successful_run_restores_bus_witness :
  run 7 (Examples.world_of Examples.app_done "monthly") 1
    [completion_filter 1; unit_counter 1]
  = Some ([completion_filter 1; unit_counter 1], Ok tt).
Proof.
  destruct (run 7 (Examples.world_of Examples.app_done "monthly") 1
              [completion_filter 1; unit_counter 1]) as [[b' [[]|e]]|] eqn:Hr;
    try (vm_compute in Hr; discriminate).
  assert (Hc : ~ In (completion_filter 7) [completion_filter 1; unit_counter 1])
    by (unfold completion_filter, unit_counter; simpl; intuition discriminate).
  assert (Hu : ~ In (unit_counter 7) [completion_filter 1; unit_counter 1])
    by (unfold completion_filter, unit_counter; simpl; intuition discriminate).
  rewrite (successful_run_restores_bus 7 _ 1 _ b' Hc Hu Hr).
  reflexivity.
Defined.

(** X9.  Once the result has been read, the periodisation tag only matters
    if a plot is drawn.  With plotting suppressed (by the argument or by the
    environment variable) or with at most one period, [run] returns
    normally whatever the tag and unsubscribes; with a plot to draw and a
    tag that is neither "monthly" nor "daily" it raises
    [NotImplementedError] with the tag and leaves both subscriptions. *)
Theorem periodisation_only_matters_when_plotting (self : nat) (w : world)
    (fuel : nat) (b b1 : bus) (evaluation : contract_valuation)
    (sim : market_simulation) (e : exit) (se m : R) (ps : list period) :
  start self w b = (b1, Ok (evaluation, sim)) ->
  wait_loop (make_call_result_id (valuation_id evaluation)
               (contract_specification_id evaluation))
    (app_at w) (wait w) fuel 0 = Some e ->
  read_results (app_at w (next_look e)) evaluation sim (path_count w)
    = Ok (se, m, ps) ->
  (supress_plot w = true \/ truthy (getenv_SUPRESS_PLOT w) = true \/
   length ps <= 1 ->
   run self w fuel b =
     Some (remove_first (completion_filter self)
             (remove_first (unit_counter self) b1), Ok tt)) /\
  (supress_plot w = false -> truthy (getenv_SUPRESS_PLOT w) = false ->
   1 < length ps ->
   periodisation w <> "monthly"%string -> periodisation w <> "daily"%string ->
   run self w fuel b = Some (b1, Raise (NotImplementedError (periodisation w)))).
Proof.
  intros Hs Hw Hr. unfold run. rewrite Hs, Hw.
  unfold finish, lift, unsubscribe, mbind, M_bind, mret, M_ret. rewrite Hr. simpl.
  split.
  - intros H.
    assert (Hskip : (negb (supress_plot w || truthy (getenv_SUPRESS_PLOT w))
                     && Nat.ltb 1 (length ps))%bool = false).
    { destruct H as [->|[H|H]]; [reflexivity| |].
      - rewrite H, orb_true_r. reflexivity.
      - apply andb_false_iff. right. apply Nat.ltb_ge. exact H. }
    rewrite Hskip. reflexivity.
  - intros -> -> Hl Hm Hd. simpl.
    apply Nat.ltb_lt in Hl. rewrite Hl. unfold plot_results.
    destruct (String.eqb_spec (periodisation w) "monthly"); [contradiction|].
    destruct (String.eqb_spec (periodisation w) "daily"); [contradiction|].
    reflexivity.
Qed.

(** Two periods, an unknown tag, but [SUPRESS_PLOT] is set. *)
Lemma periodisation_only_matters_when_plotting_witness :
  run 7 (mkWorld 2 "weekly" false (Some "1"%string)
           (Ok "spec"%string) (Ok tt) (Ok Examples.sim) (Ok [1; 1]%Z)
           (Ok Examples.evaluation) (fun _ => Examples.app_done) (fun _ => false))
    1 [] = Some ([], Ok tt).
Proof.
  destruct (read_results Examples.app_done Examples.evaluation Examples.sim 2)
    as [[[se m] ps]|err] eqn:Hr; [|vm_compute in Hr; discriminate].
  refine (proj1 (periodisation_only_matters_when_plotting 7
                   (mkWorld 2 "weekly" false (Some "1"%string)
                      (Ok "spec"%string) (Ok tt) (Ok Examples.sim) (Ok [1; 1]%Z)
                      (Ok Examples.evaluation) (fun _ => Examples.app_done)
                      (fun _ => false))
                   1 [] [completion_filter 7; unit_counter 7]
                   Examples.evaluation Examples.sim (Found 0) se m ps _ _ _) _).
  - reflexivity.
  - vm_compute. reflexivity.
  - exact Hr.
  - right. left. reflexivity.
Defined.

End RunnerMore.

(** ** More on the sensitivity aggregator *)

Module AggregatorMore.

Import Py Numpy Aggregator NumpyFacts AggregatorFacts Order.
Local Open Scope nat_scope.

(** *** Which keys give an entry *)

Lemma split_dash_length (s : string) :
  length (split_dash s) = S (count_dashes s).
Proof.
  induction s as [|c s IH]; simpl; [reflexivity|].
  destruct (Ascii.eqb c "-"); simpl; [rewrite IH; reflexivity|].
  destruct (split_dash s) as [|h t] eqn:E; [destruct (split_dash_nonempty s E)|].
  simpl in *. exact IH.
Qed.

(** The two tests of the loop body (lines 162 and 196), by the number of
    dashes in the key. *)
Lemma kind_by_dashes (k : string) :
  kind_of k =
  match count_dashes k with
  | 0 => Spot
  | 1 => Ignored
  | _ => Dated
  end.
Proof.
  pose proof (split_dash_length k) as Hl.
  destruct (kind_of k) eqn:Hk.
  - apply kind_of_spot in Hk. rewrite Hk in Hl. simpl in Hl.
    injection Hl as <-. reflexivity.
  - unfold kind_of in Hk.
    destruct (String.eqb _ k); [discriminate|].
    destruct (Nat.ltb_spec 2 (length (split_dash k))) as [H|H]; [|discriminate].
    rewrite Hl in H. destruct (count_dashes k) as [|[|n]]; [lia | lia | reflexivity].
  - apply kind_of_ignored in Hk. rewrite Hl in Hk.
    injection Hk as ->. reflexivity.
Qed.

Section Loop.

Variable app : application.
Variable cr : call_result.
Variable sim : market_simulation.
Variable n : nat.

Lemma for_each_cons (k : string) (names : list string) (st0 st : acc) :
  for_each app cr sim n (k :: names) st0 = Ok st ->
  exists s1, bucket app cr sim n st0 k = Ok s1 /\
             for_each app cr sim n names s1 = Ok st.
Proof.
  simpl. unfold_bind.
  destruct (bucket app cr sim n st0 k) as [s1|] eqn:E; [|discriminate].
  intros H. exists s1. split; [reflexivity | exact H].
Qed.

(** The entries appended by the loop are those of the keys that have a
    bucket, in the order of the keys. *)
Lemma loop_commodities (names : list string) (st0 st : acc) :
  for_each app cr sim n names st0 = Ok st ->
  map commodity (periods st) =
  map commodity (periods st0) ++ List.filter has_bucket names.
Proof.
  revert st0. induction names as [|k names IH]; intros st0.
  - simpl. intros [= <-]. rewrite app_nil_r. reflexivity.
  - intros H. destruct (for_each_cons k names st0 st H) as (s1 & Hb & Hrest).
    rewrite (IH s1 Hrest). simpl. unfold has_bucket at 2.
    apply bucket_inv in Hb. destruct (kind_of k).
    + destruct Hb as (price & h & c & _ & _ & ->). simpl.
      rewrite map_app, <- app_assoc. reflexivity.
    + destruct Hb as (d & price & h & c & T & C & _ & _ & _ & _ & ->). simpl.
      rewrite map_app, <- app_assoc. reflexivity.
    + subst s1. reflexivity.
Qed.

(** The loop fails with the exception of the first bucket that fails. *)
Lemma loop_fails_at (pre post : list string) (k : string) (st0 sb : acc) (e : exn) :
  for_each app cr sim n pre st0 = Ok sb ->
  bucket app cr sim n sb k = Raise e ->
  for_each app cr sim n (pre ++ k :: post) st0 = Raise e.
Proof.
  intros Hpre Hb. rewrite for_each_app. unfold_bind. rewrite Hpre. simpl.
  unfold_bind. rewrite Hb. reflexivity.
Qed.

(** A loop that ends has got through the bucket of every key. *)
Lemma loop_passes (names : list string) (k : string) (st0 st : acc) :
  for_each app cr sim n names st0 = Ok st ->
  In k names ->
  exists sb sa, bucket app cr sim n sb k = Ok sa.
Proof.
  intros Hl Hin. destruct (in_split _ _ Hin) as (pre & post & ->).
  destruct (for_each_split app cr sim n pre post k _ _ Hl) as (sb & sa & _ & Hb & _).
  eauto.
Qed.

End Loop.

Lemma read_results_raises_at (app : application) (ev : contract_valuation)
    (sim : market_simulation) (n : nat) (cr : call_result)
    (pre post : list string) (k : string) (sb : acc) (e : exn) :
  call_result_repo app !!
    make_call_result_id (valuation_id ev) (contract_specification_id ev) = Some cr ->
  perturbed_names cr = Ok (pre ++ k :: post) ->
  for_each app cr sim n pre (initial n) = Ok sb ->
  bucket app cr sim n sb k = Raise e ->
  read_results app ev sim n = Raise e.
Proof.
  intros Hcr Hn Hpre Hb.
  rewrite (read_results_unfold app ev sim n cr Hcr), Hn. unfold_bind.
  rewrite (loop_fails_at app cr sim n pre post k _ sb e Hpre Hb). reflexivity.
Qed.

Lemma read_results_passes (app : application) (ev : contract_valuation)
    (sim : market_simulation) (n : nat) (cr : call_result)
    (names : list string) (k : string) (x : R * R * list period) :
  call_result_repo app !!
    make_call_result_id (valuation_id ev) (contract_specification_id ev) = Some cr ->
  perturbed_names cr = Ok names ->
  In k names ->
  read_results app ev sim n = Ok x ->
  exists sb sa, bucket app cr sim n sb k = Ok sa.
Proof.
  intros Hcr Hn Hin Hr. destruct x as [[se m] ps].
  destruct (read_results_inv _ _ _ _ _ _ _ Hr) as (cr' & names' & st & Hcr' & _ & Hn' & Hl & _).
  rewrite Hcr in Hcr'. injection Hcr' as <-.
  rewrite Hn in Hn'. injection Hn' as <-.
  apply (loop_passes app cr sim n names k _ st Hl Hin).
Qed.

Lemma dict_get_raises {V} (d : list (string * V)) (k : string) (e : exn) :
  dict_get d k = Raise e -> e = KeyError.
Proof.
  induction d as [|[k' v] d IH]; simpl; [congruence|].
  destruct (String.eqb k' k); [discriminate | exact IH].
Qed.

(** X11.  Every key the loop goes through needs its negated counterpart in
    the dict, also a key that gets no entry: when it is missing
    [read_results] raises and returns nothing, and when the loop reaches
    that key what it raises is [KeyError]. *)
Theorem missing_negated_value_aborts (app : application)
    (ev : contract_valuation) (sim : market_simulation) (n : nat)
    (cr : call_result) (names : list string) (k : string) :
  call_result_repo app !!
    make_call_result_id (valuation_id ev) (contract_specification_id ev) = Some cr ->
  perturbed_names cr = Ok names ->
  In k names ->
  is_ok (dict_get (perturbed_values cr) (String "-"%char k)) = false ->
  (exists e, read_results app ev sim n = Raise e) /\
  (forall pre post sb,
     names = pre ++ k :: post ->
     for_each app cr sim n pre (initial n) = Ok sb ->
     read_results app ev sim n = Raise KeyError).
Proof.
  intros Hcr Hn Hin Hneg.
  assert (Hb : forall sb, bucket app cr sim n sb k = Raise KeyError).
  { intros sb. unfold bucket. unfold_bind.
    destruct (perturbed_names_keys cr _ k Hn Hin) as [Hkey _].
    destruct (dict_get_key _ _ Hkey) as [v ->].
    destruct (dict_get _ (String _ k)) as [|e] eqn:E; [discriminate|].
    rewrite (dict_get_raises _ _ _ E). reflexivity. }
  split.
  - destruct (read_results app ev sim n) as [x|e] eqn:Hr; [|eauto].
    destruct (read_results_passes app ev sim n cr names k x Hcr Hn Hin Hr)
      as (sb & sa & Hok).
    rewrite Hb in Hok. discriminate.
  - intros pre post sb -> Hpre.
    apply (read_results_raises_at app ev sim n cr pre post k sb KeyError Hcr Hn Hpre).
    apply Hb.
Qed.

(** Only the positive key is there. *)
Lemma missing_negated_value_aborts_witness :
  read_results (Examples.app_single "GAS-2011-1" false) Examples.evaluation
    Examples.sim 2 = Raise KeyError.
Proof.
  refine (proj2 (missing_negated_value_aborts (Examples.app_single "GAS-2011-1" false)
            Examples.evaluation Examples.sim 2 (Examples.single "GAS-2011-1" false)
            ["GAS-2011-1"%string] "GAS-2011-1" _ _ _ _) [] [] (initial 2) _ _);
    try (vm_compute; reflexivity).
  simpl. auto.
Defined.

Lemma int_of_string_raises (s : string) (e : exn) :
  int_of_string s = Raise e -> e = ValueError.
Proof.
  unfold int_of_string.
  destruct (match rstrip (lstrip s) with
            | String c b =>
              if Ascii.eqb c "-" then ((-1)%Z, b)
              else if Ascii.eqb c "+" then (1%Z, b) else (1%Z, rstrip (lstrip s))
            | EmptyString => (1%Z, rstrip (lstrip s))
            end) as [sign body].
  destruct body; [congruence|].
  destruct (digits _ _); congruence.
Qed.

Lemma sort_key_raises (k : string) (e : exn) :
  sort_key k = Raise e -> e = ValueError.
Proof.
  unfold sort_key. generalize (tl (split_dash k)). intros l.
  induction l as [|x l IH]; simpl; [discriminate|]. unfold_bind.
  destruct (int_of_string x) eqn:E; [|intros [= <-]; apply (int_of_string_raises x _ E)].
  destruct (mapM int_of_string l); [discriminate|].
  intros [= <-]. apply IH. reflexivity.
Qed.

Lemma keyed_raises (names : list string) (k : string) :
  In k names -> is_ok (sort_key k) = false -> keyed names = Raise ValueError.
Proof.
  intros Hin Hk. induction names as [|x names IH]; [destruct Hin|].
  simpl. unfold_bind.
  destruct (sort_key x) as [kx|e] eqn:E.
  - destruct Hin as [->|Hin]; [rewrite E in Hk; discriminate|].
    rewrite (IH Hin). reflexivity.
  - rewrite (sort_key_raises x e E). reflexivity.
Qed.

(** X12.  A key that does not start with a dash and has a component after
    the first that [int] does not accept makes [read_results] raise
    [ValueError] while it sorts the keys, before any bucket is looked at
    and whatever the stores hold. *)
Theorem bad_suffix_raises_value_error (app : application)
    (ev : contract_valuation) (sim : market_simulation) (n : nat)
    (cr : call_result) (k : string) :
  call_result_repo app !!
    make_call_result_id (valuation_id ev) (contract_specification_id ev) = Some cr ->
  In k (map fst (perturbed_values cr)) ->
  startswith_dash k = false ->
  is_ok (sort_key k) = false ->
  perturbed_names cr = Raise ValueError /\
  read_results app ev sim n = Raise ValueError.
Proof.
  intros Hcr Hin Hd Hk.
  assert (Hn : perturbed_names cr = Raise ValueError).
  { unfold perturbed_names, sorted. unfold_bind.
    rewrite (keyed_raises _ k); [reflexivity| |exact Hk].
    apply filter_In. split; [exact Hin|]. rewrite Hd. reflexivity. }
  split; [exact Hn|].
  rewrite (read_results_unfold app ev sim n cr Hcr), Hn. reflexivity.
Qed.

(** A quarter where a month is expected. *)
Lemma bad_suffix_raises_value_error_witness :
  read_results (Examples.app_single "GAS-2011-Q1" true) Examples.evaluation
    Examples.sim 2 = Raise ValueError.
Proof.
  apply (bad_suffix_raises_value_error (Examples.app_single "GAS-2011-Q1" true)
           Examples.evaluation Examples.sim 2 (Examples.single "GAS-2011-Q1" true)
           "GAS-2011-Q1");
    try (vm_compute; reflexivity).
  simpl. auto.
Defined.

(** X13.  A bare commodity name whose spot price is not in the store makes
    [read_results] raise, and what it raises when the loop reaches that key
    is the plain [KeyError] of the lookup, not the exception with a date
    that a dated key gets. *)
Theorem spot_price_missing_raises_key_error (app : application)
    (ev : contract_valuation) (sim : market_simulation) (n : nat)
    (cr : call_result) (names : list string) (k : string) :
  call_result_repo app !!
    make_call_result_id (valuation_id ev) (contract_specification_id ev) = Some cr ->
  perturbed_names cr = Ok names ->
  In k names ->
  kind_of k = Spot ->
  simulated_price_repo app !!
    make_simulated_price_id (simulation_id sim) k
      (observation_date sim) (observation_date sim) = None ->
  (exists e, read_results app ev sim n = Raise e) /\
  (forall pre post sb,
     names = pre ++ k :: post ->
     for_each app cr sim n pre (initial n) = Ok sb ->
     read_results app ev sim n = Raise KeyError).
Proof.
  intros Hcr Hn Hin Hk Hp.
  assert (Hb : forall sb, bucket app cr sim n sb k = Raise KeyError).
  { intros sb. rewrite bucket_by_kind, Hk. unfold_bind.
    destruct (perturbed_names_keys cr _ k Hn Hin) as [Hkey _].
    destruct (dict_get_key _ _ Hkey) as [v ->].
    destruct (dict_get _ (String _ k)) as [vn|e] eqn:E;
      [|rewrite (dict_get_raises _ _ _ E); reflexivity].
    unfold spot_bucket, repo_get. rewrite Hp. reflexivity. }
  split.
  - destruct (read_results app ev sim n) as [x|e] eqn:Hr; [|eauto].
    destruct (read_results_passes app ev sim n cr names k x Hcr Hn Hin Hr)
      as (sb & sa & Hok).
    rewrite Hb in Hok. discriminate.
  - intros pre post sb -> Hpre.
    apply (read_results_raises_at app ev sim n cr pre post k sb KeyError Hcr Hn Hpre).
    apply Hb.
Qed.

(** Prices are stored for GAS only. *)
Lemma spot_price_missing_raises_key_error_witness :
  read_results (Examples.app_single "OIL" true) Examples.evaluation
    Examples.sim 2 = Raise KeyError.
Proof.
  refine (proj2 (spot_price_missing_raises_key_error (Examples.app_single "OIL" true)
            Examples.evaluation Examples.sim 2 (Examples.single "OIL" true)
            ["OIL"%string] "OIL" _ _ _ _ _) [] [] (initial 2) _ _);
    try (vm_compute; reflexivity).
  simpl. auto.
Defined.

(** What [datetime.date] raises: [OverflowError] exactly when an argument
    does not fit a C int, [ValueError] for arguments that fit and are no
    date. *)
Lemma make_date_raises (y m d : Z) (e : exn) :
  make_date y m d = Raise e ->
  e = if (fits_c_int y && fits_c_int m && fits_c_int d)%bool
      then ValueError else OverflowError.
Proof.
  unfold make_date.
  destruct (fits_c_int y && fits_c_int m && fits_c_int d)%bool; simpl.
  - destruct (_ && _)%bool; congruence.
  - congruence.
Qed.

(** The date of a dated key, from the numbers of its sort key: the first is
    the year, the second the month, the third, if there is one, the day. *)
Lemma price_date_of_by_key (k : string) (key : list Z) :
  kind_of k = Dated ->
  sort_key k = Ok key ->
  exists y m rest,
    key = y :: m :: rest /\
    price_date_of (split_dash k) = make_date y m (hd 1%Z rest).
Proof.
  unfold kind_of, sort_key, price_date_of.
  destruct (split_dash k) as [|c [|s1 [|s2 r]]]; simpl.
  1: destruct k; discriminate.
  1: destruct (String.eqb c k); discriminate.
  1: destruct (String.eqb c k); discriminate.
  intros _. unfold_bind.
  destruct (int_of_string s1) as [y|]; [|discriminate].
  destruct (int_of_string s2) as [m|]; [|discriminate].
  destruct r as [|s3 r]; simpl.
  - intros [= <-]. exists y, m, []. split; reflexivity.
  - unfold_bind. destruct (int_of_string s3) as [d|]; [|discriminate].
    destruct (mapM int_of_string r) as [rest|]; [|discriminate].
    intros [= <-]. exists y, m, (d :: rest). split; reflexivity.
Qed.

(** X14.  A dated key whose numbers do not make a date makes
    [read_results] raise and return nothing.  When the loop reaches the key,
    its negated key being there, it raises what [datetime.date] raises,
    before any price is looked up: [ValueError] when the year, the month and
    the day fit a C int (a month 13, a 30th of February), [OverflowError]
    when one of them does not. *)
Theorem invalid_date_raises (app : application)
    (ev : contract_valuation) (sim : market_simulation) (n : nat)
    (cr : call_result) (names : list string) (k : string)
    (y m : Z) (rest : list Z) :
  call_result_repo app !!
    make_call_result_id (valuation_id ev) (contract_specification_id ev) = Some cr ->
  perturbed_names cr = Ok names ->
  In k names ->
  kind_of k = Dated ->
  sort_key k = Ok (y :: m :: rest) ->
  is_ok (make_date y m (hd 1%Z rest)) = false ->
  (exists e, read_results app ev sim n = Raise e) /\
  (forall pre post sb,
     names = pre ++ k :: post ->
     for_each app cr sim n pre (initial n) = Ok sb ->
     is_ok (dict_get (perturbed_values cr) (String "-"%char k)) = true ->
     read_results app ev sim n =
       Raise (if (fits_c_int y && fits_c_int m && fits_c_int (hd 1%Z rest))%bool
              then ValueError else OverflowError)).
Proof.
  intros Hcr Hn Hin Hk Hkey Hd.
  destruct (price_date_of_by_key k _ Hk Hkey) as (y' & m' & rest' & [= <- <- <-] & Hpd).
  destruct (make_date y m (hd 1%Z rest)) as [d|e0] eqn:Ed; [discriminate|].
  pose proof (make_date_raises _ _ _ _ Ed) as He0.
  split.
  - destruct (read_results app ev sim n) as [x|e] eqn:Hr; [|eauto].
    destruct (read_results_passes app ev sim n cr names k x Hcr Hn Hin Hr)
      as (sb & sa & Hok).
    apply bucket_inv in Hok. rewrite Hk in Hok.
    destruct Hok as (d & price & h & c & T & C & Hbp & _).
    unfold bucket_price in Hbp. rewrite Hk, Hpd in Hbp. discriminate.
  - intros pre post sb -> Hpre Hneg. rewrite <- He0.
    apply (read_results_raises_at app ev sim n cr pre post k sb e0 Hcr Hn Hpre).
    rewrite bucket_by_kind, Hk. unfold_bind.
    destruct (perturbed_names_keys cr _ k Hn Hin) as [Hkey' _].
    destruct (dict_get_key _ _ Hkey') as [v ->].
    destruct (dict_get _ (String _ k)); [|discriminate].
    unfold dated_bucket. unfold_bind. rewrite Hpd. reflexivity.
Qed.

(** A thirteenth month. *)
Lemma invalid_date_raises_witness :
  read_results (Examples.app_single "GAS-2011-13" true) Examples.evaluation
    Examples.sim 2 = Raise ValueError.
Proof.
  refine (proj2 (invalid_date_raises (Examples.app_single "GAS-2011-13" true)
            Examples.evaluation Examples.sim 2 (Examples.single "GAS-2011-13" true)
            ["GAS-2011-13"%string] "GAS-2011-13" 2011 13 [] _ _ _ _ _ _)
          [] [] (initial 2) _ _ _);
    try (vm_compute; reflexivity).
  simpl. auto.
Defined.

(** A year that is no C int. *)
Lemma year_beyond_c_int_overflows :
  read_results (Examples.app_single "GAS-99999999999999999999-1" true)
    Examples.evaluation Examples.sim 2 = Raise OverflowError.
Proof. vm_compute. reflexivity. Qed.

(** *** The order of the entries *)

Lemma list_le_trans (a b c : list Z) :
  list_ltb b a = false -> list_ltb c b = false -> list_ltb c a = false.
Proof.
  revert b c. induction a as [|x a IH]; intros [|y b] [|z c]; simpl;
    try congruence.
  destruct (Z.ltb_spec y x), (Z.ltb_spec x y), (Z.ltb_spec z y),
    (Z.ltb_spec y z), (Z.ltb_spec z x), (Z.ltb_spec x z);
    try congruence; try lia.
  apply IH.
Qed.

Lemma sort_by_key_strongly_sorted (l : list (list Z * string)) :
  StronglySorted (fun a b => list_ltb (fst b) (fst a) = false) (sort_by_key l).
Proof.
  apply Sorted_StronglySorted; [|apply sort_by_key_ascending].
  intros a b c Hab Hbc. apply (list_le_trans (fst a) (fst b) (fst c)); assumption.
Qed.

Lemma keyed_keys (names : list string) (l : list (list Z * string)) :
  keyed names = Ok l ->
  List.Forall (fun kx => sort_key (snd kx) = Ok (fst kx)) l.
Proof.
  revert l. induction names as [|x names IH]; intros l; simpl.
  - intros [= <-]. constructor.
  - unfold_bind. destruct (sort_key x) as [k|] eqn:E; [|discriminate].
    destruct (keyed names) as [rest|]; [|discriminate].
    intros [= <-]. constructor; [exact E | apply IH; reflexivity].
Qed.

Lemma sorted_names_in_order (names l : list string) :
  sorted names = Ok l -> StronglySorted name_le l.
Proof.
  unfold sorted. unfold_bind.
  destruct (keyed names) as [kl|] eqn:Hk; [|discriminate].
  intros [= <-].
  pose proof (keyed_keys names kl Hk) as Hkeys.
  assert (Hs : List.Forall (fun kx => sort_key (snd kx) = Ok (fst kx)) (sort_by_key kl)).
  { rewrite List.Forall_forall in *. intros kx Hin. apply Hkeys.
    apply (Permutation_in _ (sort_by_key_perm kl) Hin). }
  pose proof (sort_by_key_strongly_sorted kl) as Hss.
  induction Hss as [|a l _ IH Hall]; simpl; [constructor|].
  inversion Hs as [|? ? Ha Hl]; subst.
  constructor; [apply IH; exact Hl|].
  rewrite List.Forall_forall in *. intros b Hb.
  apply in_map_iff in Hb. destruct Hb as (kb & <- & Hkb).
  exists (fst a), (fst kb). repeat split; [exact Ha | apply Hl, Hkb | apply Hall, Hkb].
Qed.

Lemma strongly_sorted_filter {A} (R : A -> A -> Prop) (f : A -> bool) (l : list A) :
  StronglySorted R l -> StronglySorted R (List.filter f l).
Proof.
  induction 1 as [|a l _ IH Hall]; simpl; [constructor|].
  destruct (f a); [|exact IH]. constructor; [exact IH|].
  rewrite List.Forall_forall in *. intros b Hb.
  apply filter_In in Hb. apply Hall, Hb.
Qed.

Lemma make_date_ok (y m d : Z) (x : date) :
  make_date y m d = Ok x -> x = Date y m d /\ (1 <= d)%Z.
Proof.
  unfold make_date. destruct (negb _); [discriminate|].
  destruct (_ && _)%bool eqn:E; [|discriminate].
  intros [= <-]. split; [reflexivity|].
  repeat (apply andb_true_iff in E; destruct E as [E ?]). lia.
Qed.

(** The sort key of a dated key starts with the year and the month of its
    date; its next number, if there is one, is the day, which is 1
    otherwise. *)
Lemma dated_key_shape (k : string) (y m d : Z) (key : list Z) :
  kind_of k = Dated ->
  price_date_of (split_dash k) = Ok (Date y m d) ->
  sort_key k = Ok key ->
  (1 <= d)%Z /\
  (key = [y; m] /\ d = 1%Z \/ exists rest, key = y :: m :: d :: rest).
Proof.
  unfold kind_of, sort_key, price_date_of.
  destruct (split_dash k) as [|c [|s1 [|s2 r]]]; simpl.
  1, 2: intros _ H; discriminate H.
  1: destruct (String.eqb c k); discriminate.
  intros _. unfold_bind.
  destruct (int_of_string s1) as [y'|]; [|discriminate].
  destruct (int_of_string s2) as [m'|]; [|discriminate].
  destruct r as [|s3 r]; simpl.
  - intros Hd [= <-]. apply make_date_ok in Hd. destruct Hd as [[= <- <- <-] Hd].
    split; [lia|]. left. split; reflexivity.
  - unfold_bind. destruct (int_of_string s3) as [d'|]; [|discriminate].
    destruct (mapM int_of_string r) as [rest|]; [|discriminate].
    intros Hd [= <-]. apply make_date_ok in Hd. destruct Hd as [[= <- <- <-] Hd].
    split; [exact Hd|]. right. exists rest. reflexivity.
Qed.

Lemma period_le_of_names (p q : period) :
  date_from_key p -> date_from_key q ->
  name_le (commodity p) (commodity q) ->
  period_le p q.
Proof.
  unfold date_from_key, period_le.
  intros Hp Hq (ka & kb & Ha & Hb & Hle).
  destruct (kind_of (commodity p)) eqn:Kp; [rewrite Hp; exact I| |contradiction].
  destruct Hp as ([y1 m1 d1] & Hd1 & ->).
  destruct (dated_key_shape _ _ _ _ _ Kp Hd1 Ha) as [H1 Hka].
  destruct (kind_of (commodity q)) eqn:Kq; [| |contradiction].
  - apply kind_of_spot in Kq. unfold sort_key in Hb. rewrite Kq in Hb.
    simpl in Hb. injection Hb as <-.
    destruct Hka as [[-> _]|[rest ->]]; simpl in Hle; discriminate.
  - destruct Hq as ([y2 m2 d2] & Hd2 & ->).
    destruct (dated_key_shape _ _ _ _ _ Kq Hd2 Hb) as [H2 Hkb].
    unfold date_le.
    destruct Hka as [[-> ->]|[r1 ->]], Hkb as [[-> ->]|[r2 ->]];
      simpl in Hle;
      destruct (Z.ltb_spec y2 y1), (Z.ltb_spec y1 y2),
        (Z.ltb_spec m2 m1), (Z.ltb_spec m1 m2);
      try discriminate; try lia.
    destruct (Z.ltb_spec d2 d1); [discriminate | lia].
Qed.

Lemma loop_dates (app : application) (cr : call_result)
    (sim : market_simulation) (n : nat) (names : list string) (st : acc) :
  for_each app cr sim n names (initial n) = Ok st ->
  List.Forall date_from_key (periods st).
Proof.
  intros Hl. apply List.Forall_forall. intros p Hin.
  destruct (period_origin app cr sim n names (initial n) st p Hl Hin)
    as [[]|(pre & post & sb & sa & _ & _ & Hb & Hp)].
  apply bucket_inv in Hb. unfold date_from_key.
  destruct (kind_of (commodity p)) eqn:Hk.
  - destruct Hb as (price & h & c & _ & _ & ->). simpl in Hp.
    apply app_inj_tail in Hp. destruct Hp as [_ <-]. reflexivity.
  - destruct Hb as (d & price & h & c & T & C & Hbp & _ & _ & _ & ->).
    simpl in Hp. apply app_inj_tail in Hp. destruct Hp as [_ Hp].
    unfold bucket_price in Hbp. rewrite Hk in Hbp.
    destruct (price_date_of _) as [d'|]; [|discriminate].
    destruct (simulated_price_repo app !! _); [|discriminate].
    simpl in Hbp. injection Hbp as <- _.
    exists d'. split; [reflexivity|]. rewrite <- Hp. reflexivity.
  - subst sa. apply (f_equal (@length period)) in Hp.
    rewrite length_app in Hp. simpl in Hp. lia.
Qed.

(** X10.  What the loop does with a key is decided by the number of dashes
    in it.  The body, once the two values of the key are found, runs the
    spot branch for a key without a dash, the dated branch for a key with
    two or more, and returns the state unchanged for a key with exactly one.
    So the entries that [read_results] returns are those of the sorted keys
    whose number of dashes is not 1, and an entry has no date exactly when
    its key has no dash. *)
Theorem loop_treats_key_by_dashes :
  (forall app cr sim n st k,
     bucket app cr sim n st k =
     (pv ← dict_get (perturbed_values cr) k;
      pvn ← dict_get (perturbed_values cr) (String "-"%char k);
      match count_dashes k with
      | 0 => spot_bucket app sim n st k k pv pvn
      | 1 => Ok st
      | _ =>
        dated_bucket app sim n st k (hd EmptyString (split_dash k))
          (split_dash k) pv pvn
      end)) /\
  (forall app ev sim n se m ps,
     read_results app ev sim n = Ok (se, m, ps) ->
     exists cr names,
       call_result_repo app !!
         make_call_result_id (valuation_id ev) (contract_specification_id ev)
         = Some cr /\
       perturbed_names cr = Ok names /\
       map commodity ps =
         List.filter (fun k => negb (Nat.eqb (count_dashes k) 1)) names /\
       forall p, In p ps ->
         (date_of p = None <-> count_dashes (commodity p) = 0)).
Proof.
  split.
  - intros app cr sim n st k. rewrite bucket_by_kind, kind_by_dashes.
    destruct (count_dashes k) as [|[|d]]; reflexivity.
  - intros app ev sim n se m ps Hr.
    destruct (read_results_inv _ _ _ _ _ _ _ Hr)
      as (cr & names & st & Hcr & _ & Hn & Hl & ->).
    exists cr, names. split; [exact Hcr|]. split; [exact Hn|]. split.
    + rewrite (loop_commodities app cr sim n names _ st Hl). simpl.
      apply filter_ext. intros k. unfold has_bucket. rewrite kind_by_dashes.
      destruct (count_dashes k) as [|[|d]]; reflexivity.
    + intros p Hin.
      pose proof (loop_dates app cr sim n names st Hl) as Hd.
      rewrite List.Forall_forall in Hd. specialize (Hd p Hin).
      unfold date_from_key in Hd. rewrite kind_by_dashes in Hd.
      destruct (count_dashes (commodity p)) as [|[|d]].
      * rewrite Hd. tauto.
      * contradiction.
      * destruct Hd as (x & _ & ->). split; discriminate.
Qed.

(** A bare name, a key with a year only and a monthly key. *)
Lemma loop_treats_key_by_dashes_witness :
  match read_results Examples.app_mixed Examples.evaluation Examples.sim 2 with
  | Ok (_, _, ps) => map commodity ps = ["GAS"; "GAS-2011-2"]%string
  | Raise _ => False
  end.
Proof.
  destruct (read_results Examples.app_mixed Examples.evaluation Examples.sim 2)
    as [[[se m] ps]|e] eqn:Hr; [|vm_compute in Hr; discriminate].
  destruct (proj2 loop_treats_key_by_dashes _ _ _ _ _ _ _ Hr)
    as (cr & names & Hcr & Hn & Hc & _).
  vm_compute in Hcr. injection Hcr as <-.
  vm_compute in Hn. injection Hn as <-.
  rewrite Hc. vm_compute. reflexivity.
Defined.

(** X15.  The entries returned are exactly those of the keys that do not
    start with a dash and have no dash at all or at least two, one entry
    per key, in the order the sort leaves the keys in; and each entry
    carries the date its key spells. *)
Theorem periods_follow_keys (app : application) (ev : contract_valuation)
    (sim : market_simulation) (n : nat) (se m : R) (ps : list period) :
  read_results app ev sim n = Ok (se, m, ps) ->
  exists cr names,
    call_result_repo app !!
      make_call_result_id (valuation_id ev) (contract_specification_id ev) = Some cr /\
    perturbed_names cr = Ok names /\
    Permutation names
      (List.filter (fun i => negb (startswith_dash i))
         (map fst (perturbed_values cr))) /\
    map commodity ps = List.filter has_bucket names /\
    List.Forall date_from_key ps.
Proof.
  intros Hr.
  destruct (read_results_inv _ _ _ _ _ _ _ Hr)
    as (cr & names & st & Hcr & _ & Hn & Hl & ->).
  exists cr, names. split; [exact Hcr|]. split; [exact Hn|].
  split; [apply sorted_perm, Hn|].
  split; [apply (loop_commodities app cr sim n names _ st Hl)|].
  apply (loop_dates app cr sim n names st Hl).
Qed.

Lemma periods_follow_keys_witness :
  match read_results Examples.app_mixed Examples.evaluation Examples.sim 2 with
  | Ok (_, _, ps) => map commodity ps = ["GAS"; "GAS-2011-2"]%string
  | Raise _ => False
  end.
Proof.
  destruct (read_results Examples.app_mixed Examples.evaluation Examples.sim 2)
    as [[[se m] ps]|e] eqn:Hr; [|vm_compute in Hr; discriminate].
  destruct (periods_follow_keys _ _ _ _ _ _ _ Hr)
    as (cr & names & Hcr & Hn & _ & Hc & _).
  vm_compute in Hcr. injection Hcr as <-.
  vm_compute in Hn. injection Hn as <-.
  rewrite Hc. vm_compute. reflexivity.
Defined.

(** X16.  The entries come out ordered: those without a date first, then
    the dated ones by calendar date, never a later date before an earlier
    one. *)
Theorem periods_in_order (app : application) (ev : contract_valuation)
    (sim : market_simulation) (n : nat) (se m : R) (ps : list period) :
  read_results app ev sim n = Ok (se, m, ps) ->
  StronglySorted period_le ps.
Proof.
  intros Hr.
  destruct (read_results_inv _ _ _ _ _ _ _ Hr)
    as (cr & names & st & Hcr & _ & Hn & Hl & ->).
  pose proof (loop_commodities app cr sim n names _ st Hl) as Hc. simpl in Hc.
  pose proof (loop_dates app cr sim n names st Hl) as Hd.
  assert (Hs : StronglySorted name_le (map commodity (periods st))).
  { rewrite Hc. apply strongly_sorted_filter.
    apply (sorted_names_in_order _ _ Hn). }
  clear Hc Hl Hr. induction (periods st) as [|p ps IH]; [constructor|].
  simpl in Hs. inversion Hs as [|? ? Hs' Hall]; subst.
  inversion Hd as [|? ? Hp Hd']; subst.
  constructor; [apply IH; assumption|].
  rewrite List.Forall_forall in *. intros q Hq.
  apply period_le_of_names; [exact Hp | apply Hd', Hq|].
  apply Hall, in_map, Hq.
Qed.

Lemma periods_in_order_witness :
  match read_results Examples.app_done Examples.evaluation Examples.sim 2 with
  | Ok (_, _, ps) => StronglySorted period_le ps
  | Raise _ => False
  end.
Proof.
  destruct (read_results Examples.app_done Examples.evaluation Examples.sim 2)
    as [[[se m] ps]|e] eqn:Hr; [|vm_compute in Hr; discriminate].
  apply (periods_in_order _ _ _ _ _ _ _ Hr).
Defined.

(** *** Cumulative fields *)

(** X17.  An entry without a date repeats its own hedge and cash figures
    in its cumulative fields and has no total-units standard error; a dated
    entry carries as total-units standard error the standard error of its
    cumulative position. *)
Theorem cumulative_fields_by_kind (app : application) (ev : contract_valuation)
    (sim : market_simulation) (n : nat) (se m : R) (ps : list period) (p : period) :
  read_results app ev sim n = Ok (se, m, ps) ->
  In p ps ->
  match date_of p with
  | None =>
    cum_pos_mean p = hedge_units_mean p /\
    cum_pos_stderr p = hedge_units_stderr p /\
    cum_cash_mean p = cash_in_mean p /\
    cum_cash_stderr p = cash_in_stderr p /\
    total_unit_stderr p = None
  | Some _ => total_unit_stderr p = Some (cum_pos_stderr p)
  end.
Proof.
  intros Hr Hin.
  destruct (read_results_inv _ _ _ _ _ _ _ Hr)
    as (cr & names & st & _ & _ & _ & Hl & ->).
  destruct (period_origin app cr sim n names (initial n) st p Hl Hin)
    as [[]|(pre & post & sb & sa & _ & _ & Hb & Hp)].
  apply bucket_inv in Hb. destruct (kind_of (commodity p)).
  - destruct Hb as (price & h & c & _ & _ & ->). simpl in Hp.
    apply app_inj_tail in Hp. destruct Hp as [_ <-]. simpl.
    repeat split; reflexivity.
  - destruct Hb as (d & price & h & c & T & C & _ & _ & _ & _ & ->). simpl in Hp.
    apply app_inj_tail in Hp. destruct Hp as [_ <-]. reflexivity.
  - subst sa. apply (f_equal (@length period)) in Hp.
    rewrite length_app in Hp. simpl in Hp. lia.
Qed.

Lemma cumulative_fields_by_kind_witness :
  match read_results Examples.app_mixed Examples.evaluation Examples.sim 2 with
  | Ok (_, _, ps) =>
    match ps with
    | p :: _ => cum_pos_mean p = hedge_units_mean p
    | [] => False
    end
  | Raise _ => False
  end.
Proof.
  destruct (read_results Examples.app_mixed Examples.evaluation Examples.sim 2)
    as [[[se m] ps]|e] eqn:Hr; [|vm_compute in Hr; discriminate].
  destruct ps as [|p ps]; [vm_compute in Hr; discriminate|].
  pose proof (cumulative_fields_by_kind _ _ _ _ _ _ _ p Hr (or_introl eq_refl)) as H.
  assert (Hd : date_of p = None) by (vm_compute in Hr; injection Hr as _ _ <- _; reflexivity).
  rewrite Hd in H. apply H.
Defined.

(** *** The plotted series *)







(** *** The path count and the length of the vectors *)

Lemma loop_lengths (app : application) (cr : call_result)
    (sim : market_simulation) (n : nat) (names : list string) (st : acc) :
  for_each app cr sim n names (initial n) = Ok st ->
  length (total_units st) = n /\ length (total_cash_in st) = n.
Proof.
  revert st. induction names as [|k names IH] using rev_ind; intros st.
  - simpl. intros [= <-]. simpl. rewrite zeros_length. auto.
  - intros H.
    destruct (for_each_split app cr sim n names [] k _ _ H) as (sb & sa & Hpre & Hb & Hpost).
    simpl in Hpost. injection Hpost as ->.
    destruct (IH sb Hpre) as [Lu Lc].
    apply bucket_inv in Hb. destruct (kind_of k).
    + destruct Hb as (price & h & c & _ & _ & ->). auto.
    + destruct Hb as (d & price & h & c & T & C & _ & _ & HT & HC & ->). simpl.
      apply iadd_length in HT, HC. lia.
    + subst st. auto.
Qed.

Lemma iadd_mismatch (t h : ndarray) :
  length h <> length t -> length h <> 1 -> iadd t h = Raise ValueError.
Proof.
  intros Hl H1. unfold iadd.
  destruct (Nat.eqb_spec (length h) (length t)); [contradiction|].
  destruct h as [|y [|z h]]; simpl in *; try reflexivity. lia.
Qed.

(** X20.  The path count has to be the length of the sample vectors of
    every dated key.  A dated key whose two values and price are vectors of
    one common length that is neither the path count nor 1 makes
    [read_results] raise; when the loop reaches it, it raises the
    [ValueError] of the in-place addition to the running totals. *)
Theorem wrong_path_count_raises (app : application) (ev : contract_valuation)
    (sim : market_simulation) (n : nat) (cr : call_result)
    (names : list string) (k : string) (d : date) (vp vn price : ndarray) :
  call_result_repo app !!
    make_call_result_id (valuation_id ev) (contract_specification_id ev) = Some cr ->
  perturbed_names cr = Ok names ->
  In k names ->
  bucket_price app sim k = Some (Some d, price) ->
  dict_get (perturbed_values cr) k = Ok (NdArray vp) ->
  dict_get (perturbed_values cr) (String "-"%char k) = Ok (NdArray vn) ->
  length vp = length price -> length vn = length price ->
  length price <> n -> length price <> 1 ->
  (exists e, read_results app ev sim n = Raise e) /\
  (forall pre post sb,
     names = pre ++ k :: post ->
     for_each app cr sim n pre (initial n) = Ok sb ->
     read_results app ev sim n = Raise ValueError).
Proof.
  intros Hcr Hn Hin Hbp Hv Hneg Lp Ln Hne H1.
  destruct (vectors_of_arrays cr sim k vp vn price Hv Hneg Lp Ln)
    as (h & c & Hvec & _ & _ & Lh & Lc).
  assert (Hb : forall sb, length (total_units sb) = n ->
                 is_ok (bucket app cr sim n sb k) = false /\
                 bucket app cr sim n sb k = Raise ValueError).
  { intros sb Lu.
    assert (Hk : kind_of k = Dated).
    { unfold bucket_price in Hbp. destruct (kind_of k); try discriminate; [|reflexivity].
      destruct (simulated_price_repo app !! _); discriminate. }
    assert (HR : bucket app cr sim n sb k = Raise ValueError).
    { rewrite bucket_by_kind, Hk, Hv, Hneg. unfold_bind.
      unfold bucket_price in Hbp. rewrite Hk in Hbp.
      unfold dated_bucket. unfold_bind.
      destruct (price_date_of _) as [d'|]; [|discriminate].
      destruct (simulated_price_repo app !! _) as [price'|]; [|discriminate].
      simpl in Hbp. injection Hbp as _ ->.
      unfold vectors_of in Hvec. rewrite Hv, Hneg in Hvec. unfold_bind.
      destruct (hedge_units_of _ _ _ _) as [h'|]; [|discriminate].
      destruct (cash_in_of _ _) as [c'|]; [|discriminate].
      injection Hvec as -> ->.
      rewrite (iadd_mismatch (total_units sb) h) by lia. reflexivity. }
    rewrite HR. auto. }
  split.
  - destruct (read_results app ev sim n) as [[[se m] ps]|e] eqn:Hr; [|eauto].
    exfalso.
    destruct (read_results_inv _ _ _ _ _ _ _ Hr) as (cr' & names' & st & Hcr' & _ & Hn' & Hl & _).
    rewrite Hcr in Hcr'. injection Hcr' as <-.
    rewrite Hn in Hn'. injection Hn' as <-.
    destruct (in_split _ _ Hin) as (pre & post & ->).
    destruct (for_each_split app cr sim n pre post k _ _ Hl) as (sb & sa & Hpre & Hok & _).
    destruct (loop_lengths app cr sim n pre sb Hpre) as [Lu _].
    destruct (Hb sb Lu) as [_ HR]. rewrite HR in Hok. discriminate.
  - intros pre post sb -> Hpre.
    destruct (loop_lengths app cr sim n pre sb Hpre) as [Lu _].
    apply (read_results_raises_at app ev sim n cr pre post k sb ValueError Hcr Hn Hpre).
    apply (Hb sb Lu).
Qed.

(** Vectors of two samples read with a path count of 3. *)
Lemma wrong_path_count_raises_witness :
  read_results Examples.app_done Examples.evaluation Examples.sim 3
    = Raise ValueError.
Proof.
  refine (proj2 (wrong_path_count_raises Examples.app_done Examples.evaluation
            Examples.sim 3 Examples.two_months
            ["GAS-2011-1"; "GAS-2011-2"]%string "GAS-2011-1" (Date 2011 1 1)
            [11; 14]%R [9; 11]%R [10; 20]%R _ _ _ _ _ _ _ _ _ _)
          [] ["GAS-2011-2"%string] (initial 3) _ _);
    try (vm_compute; reflexivity); try (simpl; lia).
  simpl. auto.
Defined.

End AggregatorMore.
